(** * The order, cart and template manager of the food ordering page

    A shallow embedding of the class [CartManager] of
    [assets/js/app-optimized.js] and the properties of its order store,
    followed by the validators of the forms ([FormValidator],
    [OrderManager.validateField], [buildFullAddress]) and the outcome of the
    handlers of the sign-up and login forms.

    Conventions of the embedding.

    - A JavaScript number is [NaN] or an integer [Num z].  On integers of
      magnitude below 2^53 the operations of the source ([+], [*], [===],
      [>], [parseInt], [parseFloat]) are exact on doubles and coincide with
      the ones defined here; fractions and infinities are outside the model.
      Sums are stated in the order in which [reduce] adds, from left to
      right, so that no statement rests on the associativity of [+].
    - A JavaScript string is a [string] holding one code unit below 256 per
      character, so that character 160 is the no-break space.
    - [this.orders] is an object literal used as a map from order ids to
      arrays: a [gmap] holds its own properties.  The operations of the
      order store are defined for ids that name no property inherited from
      [Object.prototype] ([inherited]); what [this.orders[id]] gives for
      every id, those names included, is [Lookup.get], and the statements
      about existing orders say which ids they cover.  The key order of
      [Object.keys] is left out.
    - An array holds references to item objects.  The objects live in [heap]
      and an array is a list of locations, so that two arrays built with the
      spread syntax [[...a]] share their items, as they do in the source.
    - [Date.now()] and the suffix drawn from [Math.random()] are read from an
      environment [env] handed to each operation.
    - [showNotification] appends to the log [notifications]; the rendering of
      the page ([updateCartDisplay]), the write-through to [localStorage] and
      the listeners (none is registered in the source) read the state and do
      not change it, and are left out.  The rendering returns whenever the
      cart is an array; [Lookup.updateCartDisplay] tells what it does when
      the getter gives an inherited property.
    - [reachable] describes one session of the page, started on an empty
      [localStorage].
    - A pattern between [^] and [$] is a [regex], and [test] decides whether
      the whole string belongs to its language.
    - The handlers that wait for a timer are described by what they end
      with; the delays and the loading state of the buttons are left out. *)

From Stdlib Require Import Ascii String ZArith Lia.
From stdpp Require Import gmap strings list fin_maps pretty.

(** ** JavaScript values *)

Module JS.

Inductive number := NaN | Num (z : Z).

#[global] Instance number_eq_dec : EqDecision number.
Proof. solve_decision. Defined.

(** [a + b] and [a * b] on numbers. *)
Definition add (a b : number) : number :=
  match a, b with
  | Num x, Num y => Num (x + y)
  | _, _ => NaN
  end.

Definition mul (a b : number) : number :=
  match a, b with
  | Num x, Num y => Num (x * y)
  | _, _ => NaN
  end.

(** [a === b]: [NaN] differs from every number, itself included. *)
Definition strict_eq (a b : number) : bool :=
  match a, b with
  | Num x, Num y => bool_decide (x = y)
  | _, _ => false
  end.

(** [a > b], [a >= b] and [a < b]: false as soon as one side is [NaN]. *)
Definition gtb (a b : number) : bool :=
  match a, b with
  | Num x, Num y => bool_decide (y < x)%Z
  | _, _ => false
  end.

Definition geb (a b : number) : bool :=
  match a, b with
  | Num x, Num y => bool_decide (y ≤ x)%Z
  | _, _ => false
  end.

Definition ltb (a b : number) : bool := gtb b a.

(** Truthiness of a number: [0] and [NaN] are falsy. *)
Definition truthy (n : number) : bool :=
  match n with
  | NaN => false
  | Num z => negb (bool_decide (z = 0%Z))
  end.

(** [a || b] on numbers. *)
Definition or_number (a b : number) : number := if truthy a then a else b.

(** The primitive values a caller may pass where the source coerces. *)
Inductive primitive :=
  | Undefined
  | Null
  | Bool (b : bool)
  | Number (n : number)
  | Str (s : string).

Definition code (c : ascii) : N := N_of_ascii c.

(** White space and line terminators among the code units below 256: the
    characters removed by [trim], skipped by [parseInt] and matched by [\s]. *)
Definition is_whitespace (c : ascii) : bool :=
  let n := code c in
  ((n =? 9) || (n =? 10) || (n =? 11) || (n =? 12) || (n =? 13)
   || (n =? 32) || (n =? 160))%N.

Fixpoint trimStart (s : string) : string :=
  match s with
  | String c s' => if is_whitespace c then trimStart s' else s
  | EmptyString => EmptyString
  end.

Definition trim (s : string) : string :=
  String.rev (trimStart (String.rev (trimStart s))).

Definition lower_char (c : ascii) : ascii :=
  let n := code c in
  if ((65 <=? n) && (n <=? 90)
      || (192 <=? n) && (n <=? 222) && negb (n =? 215))%N
  then ascii_of_N (n + 32) else c.

Fixpoint toLowerCase (s : string) : string :=
  match s with
  | String c s' => String (lower_char c) (toLowerCase s')
  | EmptyString => EmptyString
  end.

(** [s.replace(/\s+/g, '-')]: every maximal run of white space becomes one
    dash.  [in_run] tells that the previous character was white space. *)
Fixpoint replace_spaces (in_run : bool) (s : string) : string :=
  match s with
  | String c s' =>
      if is_whitespace c
      then if in_run then replace_spaces true s'
           else String "-" (replace_spaces true s')
      else String c (replace_spaces false s')
  | EmptyString => EmptyString
  end.

(** The value of a digit or letter as a digit of [parseInt]. *)
Definition digit_value (c : ascii) : option Z :=
  let n := Z.of_N (code c) in
  if ((48 <=? n) && (n <=? 57))%Z then Some (n - 48)%Z
  else if ((97 <=? n) && (n <=? 122))%Z then Some (n - 87)%Z
  else if ((65 <=? n) && (n <=? 90))%Z then Some (n - 55)%Z
  else None.

(** The longest prefix of radix digits, read as an integer; [acc] is [None]
    until a first digit is read. *)
Fixpoint parse_digits (radix : Z) (acc : option Z) (s : string) : option Z :=
  match s with
  | String c s' =>
      match digit_value c with
      | Some d =>
          if (d <? radix)%Z
          then parse_digits radix (Some (default 0 acc * radix + d)%Z) s'
          else acc
      | None => acc
      end
  | EmptyString => acc
  end.

(** [parseInt(s)] of a string, with no radix argument: leading white space,
    a sign, an optional [0x] prefix, then digits; [NaN] without a digit. *)
Definition parseInt_string (s : string) : number :=
  let s1 := trimStart s in
  let '(sign, s2) :=
    match s1 with
    | String "-" r => ((-1)%Z, r)
    | String "+" r => (1%Z, r)
    | _ => (1%Z, s1)
    end in
  let '(radix, s3) :=
    match s2 with
    | String "0" (String "x" r) => (16%Z, r)
    | String "0" (String "X" r) => (16%Z, r)
    | _ => (10%Z, s2)
    end in
  match parse_digits radix None s3 with
  | Some m => Num (sign * m)
  | None => NaN
  end.

(** [parseInt(v)]: the argument is converted to a string first, so that
    [undefined], [null] and the booleans give [NaN] and an integer gives
    itself. *)
Definition parseInt (v : primitive) : number :=
  match v with
  | Undefined | Null | Bool _ => NaN
  | Number n => n
  | Str s => parseInt_string s
  end.

(** [parseFloat(n)] of a number: printing then reading an integer or [NaN]
    gives it back. *)
Definition parseFloat (n : number) : number := n.

End JS.

Import JS.

(** ** Utility functions *)

Definition escape_char (c : ascii) : string :=
  let n := code c in
  if (n =? 38)%N then "&amp;"
  else if (n =? 60)%N then "&lt;"
  else if (n =? 62)%N then "&gt;"
  else if (n =? 160)%N then "&nbsp;"
  else String c EmptyString.

(** [sanitizeInput]: the text is stored in a [div] and read back as markup,
    which escapes [&], [<], [>] and the no-break space. *)
Fixpoint sanitizeInput (input : string) : string :=
  match input with
  | String c s => escape_char c +:+ sanitizeInput s
  | EmptyString => EmptyString
  end.

(** ** Data model *)

Abbreviation loc := nat (only parsing).

Record Item := {
  item_name : string;
  item_price : number;
  item_quantity : number;
  item_id : string
}.

Record Template := {
  tpl_id : string;
  tpl_name : string;
  tpl_items : list loc;
  tpl_createdAt : Z;
  tpl_total : number;
  tpl_itemCount : number;
  tpl_updatedAt : option Z
}.

Inductive severity := Info | Success | Error.

Record CartManager := {
  activeOrderId : string;
  orders : gmap string (list loc);
  orderTemplates : list Template;
  heap : list Item;
  notifications : list (string * severity)
}.

(** What the environment answers: [Date.now()] and
    [Math.random().toString(36).substr(2, 5)]. *)
Record env := {
  now : Z;
  random_suffix : string
}.

(** The argument of [addItem].  A field that is absent is [None]; the name
    and the id are strings, the price is a number (the click handler of the
    page applies [parseFloat] to the label itself), the quantity is any
    primitive value. *)
Record descriptor := {
  d_name : option string;
  d_price : option number;
  d_quantity : primitive;
  d_id : option string
}.

#[global] Instance Item_eq_dec : EqDecision Item.
Proof. solve_decision. Defined.

#[global] Instance severity_eq_dec : EqDecision severity.
Proof. solve_decision. Defined.

#[global] Instance Template_eq_dec : EqDecision Template.
Proof. solve_decision. Defined.

(** Truthiness of an optional string and of an optional number. *)
Definition truthy_string (o : option string) : bool :=
  match o with
  | Some s => negb (bool_decide (s = EmptyString))
  | None => false
  end.

Definition truthy_number (o : option number) : bool :=
  match o with
  | Some n => truthy n
  | None => false
  end.

(** [o || d] on strings. *)
Definition or_string (o : option string) (d : string) : string :=
  match o with
  | Some s => if bool_decide (s = EmptyString) then d else s
  | None => d
  end.

(** ** Field updates *)

Definition set_activeOrderId (v : string) (st : CartManager) : CartManager :=
  {| activeOrderId := v; orders := orders st;
     orderTemplates := orderTemplates st; heap := heap st;
     notifications := notifications st |}.

Definition set_orders (v : gmap string (list loc)) (st : CartManager)
  : CartManager :=
  {| activeOrderId := activeOrderId st; orders := v;
     orderTemplates := orderTemplates st; heap := heap st;
     notifications := notifications st |}.

Definition set_orderTemplates (v : list Template) (st : CartManager)
  : CartManager :=
  {| activeOrderId := activeOrderId st; orders := orders st;
     orderTemplates := v; heap := heap st;
     notifications := notifications st |}.

Definition set_heap (v : list Item) (st : CartManager) : CartManager :=
  {| activeOrderId := activeOrderId st; orders := orders st;
     orderTemplates := orderTemplates st; heap := v;
     notifications := notifications st |}.

Definition showNotification (message : string) (type : severity)
  (st : CartManager) : CartManager :=
  {| activeOrderId := activeOrderId st; orders := orders st;
     orderTemplates := orderTemplates st; heap := heap st;
     notifications := notifications st ++ [(message, type)] |}.

Definition set_quantity (q : number) (it : Item) : Item :=
  {| item_name := item_name it; item_price := item_price it;
     item_quantity := q; item_id := item_id it |}.

(** ** The cart: the items of the active order *)

(** [get cart()]: [this.orders[this.activeOrderId] || []]. *)
Definition cart (st : CartManager) : list loc :=
  default [] (orders st !! activeOrderId st).

(** [set cart(items)]. *)
Definition set_cart (items : list loc) (st : CartManager) : CartManager :=
  set_orders (<[activeOrderId st := items]> (orders st)) st.

(** A [push] or [splice] on the array the getter returns.  When the active
    order is missing the getter returns a fresh array and the change is
    lost. *)
Definition cart_mutate (f : list loc → list loc) (st : CartManager)
  : CartManager :=
  match orders st !! activeOrderId st with
  | Some items => set_orders (<[activeOrderId st := f items]> (orders st)) st
  | None => st
  end.

(** The item objects an array refers to. *)
Definition items_of (h : list Item) (ls : list loc) : list Item :=
  omap (λ l, h !! l) ls.

Definition cart_items (st : CartManager) : list Item :=
  items_of (heap st) (cart st).

(** [this.orders[orderId]] used as a condition, for an id that names no
    inherited property: an array is truthy, and the id has a value only as
    an own property.  [Lookup.has_order] is the condition for every id. *)
Definition has_order (st : CartManager) (orderId : string) : bool :=
  bool_decide (is_Some (orders st !! orderId)).

Definition initializeDefaultOrder (st : CartManager) : CartManager :=
  if negb (has_order st "default")
  then set_orders (<["default" := []]> (orders st)) st
  else st.

(** The constructor on an empty [localStorage]. *)
Definition new_CartManager : CartManager :=
  initializeDefaultOrder
    {| activeOrderId := "default"; orders := ∅; orderTemplates := [];
       heap := []; notifications := [] |}.

Definition generateItemId (e : env) (name : string) : string :=
  "item-" +:+ replace_spaces false (toLowerCase name) +:+ "-"
  +:+ pretty (now e).

Definition generateOrderId (e : env) (prefix : string) : string :=
  prefix +:+ "-" +:+ pretty (now e) +:+ "-" +:+ random_suffix e.

(** The test of [this.cart.find] in [addItem]. *)
Definition same_item (h : list Item) (name : string) (price : number)
  (l : loc) : bool :=
  match h !! l with
  | Some cartItem =>
      bool_decide (item_name cartItem = name)
      && strict_eq (item_price cartItem) price
  | None => false
  end.

Definition addItem (e : env) (item : option descriptor) (st : CartManager)
  : bool * CartManager :=
  match item with
  | None => (false, st)
  | Some d =>
      if negb (truthy_string (d_name d)) || negb (truthy_number (d_price d))
      then (false, st)
      else
        let name := default EmptyString (d_name d) in
        let sanitizedItem :=
          {| item_name := sanitizeInput name;
             item_price := parseFloat (default NaN (d_price d));
             item_quantity := or_number (parseInt (d_quantity d)) (Num 1);
             item_id := or_string (d_id d) (generateItemId e name) |} in
        let st1 :=
          match find (same_item (heap st) (item_name sanitizedItem)
                        (item_price sanitizedItem)) (cart st) with
          | Some existingItem =>
              set_heap
                (alter (λ it, set_quantity
                                (add (item_quantity it)
                                     (item_quantity sanitizedItem)) it)
                   existingItem (heap st)) st
          | None =>
              cart_mutate (λ items, items ++ [length (heap st)])
                (set_heap (heap st ++ [sanitizedItem]) st)
          end in
        (true,
         showNotification (item_name sanitizedItem +:+ " added to cart!")
           Success st1)
  end.

(** [index >= 0 && index < this.cart.length]. *)
Definition in_cart (index : number) (st : CartManager) : bool :=
  geb index (Num 0) && ltb index (Num (Z.of_nat (length (cart st)))).

(** The position an in-range index denotes. *)
Definition position (index : number) : nat :=
  match index with
  | Num z => Z.to_nat z
  | NaN => 0
  end.

Definition removeItem (index : number) (st : CartManager) : CartManager :=
  if in_cart index st then
    let itemName :=
      match cart st !! position index ≫= (λ l, heap st !! l) with
      | Some it => item_name it
      | None => EmptyString
      end in
    showNotification (itemName +:+ " removed from cart!") Info
      (cart_mutate (delete (position index)) st)
  else st.

Definition updateQuantity (index : number) (quantity : primitive)
  (st : CartManager) : CartManager :=
  if in_cart index st then
    let newQuantity := parseInt quantity in
    if gtb newQuantity (Num 0) then
      match cart st !! position index with
      | Some l => set_heap (alter (set_quantity newQuantity) l (heap st)) st
      | None => st
      end
    else cart_mutate (delete (position index)) st
  else st.

(** The two [reduce] calls, over an array of item objects. *)
Definition reduce_total (h : list Item) (ls : list loc) : number :=
  fold_left
    (λ total l,
       match h !! l with
       | Some item => add total (mul (item_price item) (item_quantity item))
       | None => total
       end) ls (Num 0).

Definition reduce_count (h : list Item) (ls : list loc) : number :=
  fold_left
    (λ count l,
       match h !! l with
       | Some item => add count (item_quantity item)
       | None => count
       end) ls (Num 0).

Definition getTotal (st : CartManager) : number :=
  reduce_total (heap st) (cart st).

Definition getItemCount (st : CartManager) : number :=
  reduce_count (heap st) (cart st).

Definition clearCart (st : CartManager) : CartManager :=
  showNotification "Cart cleared!" Info (set_cart [] st).

(** ** Several orders *)

(** The conditions [this.orders[id]] of these operations are read with
    [has_order], which is what the source computes for an id that names no
    inherited property.  [Lookup] has [switchToOrder], [createOrder] and
    [deleteOrder] for every id, and the two agree on the ids that name no
    inherited property ([switchToOrder_plain], [createOrder_plain],
    [deleteOrder_plain]). *)

Definition switchToOrder (orderId : string) (st : CartManager) : CartManager :=
  if has_order st orderId then
    showNotification ("Switched to order: " +:+ orderId) Info
      (set_activeOrderId orderId st)
  else showNotification ("Order not found: " +:+ orderId) Error st.

Definition createOrder (e : env) (name : option string) (st : CartManager)
  : string * CartManager :=
  let orderId := or_string name (generateOrderId e "order") in
  if negb (has_order st orderId) then
    (orderId,
     showNotification ("Created new order: " +:+ orderId) Success
       (switchToOrder orderId
          (set_orders (<[orderId := []]> (orders st)) st)))
  else (orderId, st).

Definition duplicateCurrentOrder (e : env) (st : CartManager)
  : string * CartManager :=
  let currentItems := cart st in
  let newOrderId := generateOrderId e "copy" in
  (newOrderId,
   showNotification ("Duplicated order as: " +:+ newOrderId) Success
     (set_orders (<[newOrderId := currentItems]> (orders st)) st)).

Definition deleteOrder (orderId : string) (st : CartManager)
  : bool * CartManager :=
  if bool_decide (orderId = "default") then
    (false, showNotification "Cannot delete default order" Error st)
  else if has_order st orderId then
    let st1 := set_orders (delete orderId (orders st)) st in
    let st2 :=
      if bool_decide (activeOrderId st1 = orderId)
      then switchToOrder "default" st1 else st1 in
    (true, showNotification ("Deleted order: " +:+ orderId) Info st2)
  else (false, st).

(** [Object.keys(this.orders)], up to the order of the keys. *)
Definition getAllOrderIds (st : CartManager) : list string :=
  (map_to_list (orders st)).*1.

Record OrderSummary := {
  sum_orderId : string;
  sum_itemCount : number;
  sum_total : number;
  sum_items : list loc
}.

Definition renameOrder (oldOrderId newOrderId : string) (st : CartManager)
  : bool * CartManager :=
  match orders st !! oldOrderId with
  | Some items =>
      if negb (has_order st newOrderId) then
        let st1 :=
          set_orders
            (delete oldOrderId (<[newOrderId := items]> (orders st))) st in
        let st2 :=
          if bool_decide (activeOrderId st1 = oldOrderId)
          then set_activeOrderId newOrderId st1 else st1 in
        (true,
         showNotification ("Renamed order to: " +:+ newOrderId) Success st2)
      else (false, st)
  | None => (false, st)
  end.

(** ** Order templates *)

Definition has_name (name : string) (t : Template) : bool :=
  bool_decide (tpl_name t = name).

Definition has_id (templateId : string) (t : Template) : bool :=
  bool_decide (tpl_id t = templateId).

Definition saveAsTemplate (e : env) (templateName : option string)
  (st : CartManager) : option string * CartManager :=
  if negb (truthy_string templateName)
     || bool_decide (trim (default EmptyString templateName) = EmptyString)
  then (None, showNotification "Please enter a template name" Error st)
  else
    let sanitizedName :=
      sanitizeInput (trim (default EmptyString templateName)) in
    match find (has_name sanitizedName) (orderTemplates st) with
    | Some _ =>
        (None,
         showNotification "Template with this name already exists" Error st)
    | None =>
        let template :=
          {| tpl_id := generateOrderId e "template";
             tpl_name := sanitizedName;
             tpl_items := cart st;
             tpl_createdAt := now e;
             tpl_total := getTotal st;
             tpl_itemCount := getItemCount st;
             tpl_updatedAt := None |} in
        (Some (tpl_id template),
         showNotification ("Saved template: " +:+ sanitizedName) Success
           (set_orderTemplates (orderTemplates st ++ [template]) st))
    end.

Definition getTemplate (templateId : string) (st : CartManager)
  : option Template :=
  find (has_id templateId) (orderTemplates st).

Definition loadTemplate (templateId : string) (targetOrderId : option string)
  (st : CartManager) : bool * CartManager :=
  match find (has_id templateId) (orderTemplates st) with
  | None => (false, showNotification "Template not found" Error st)
  | Some template =>
      let orderId := or_string targetOrderId (activeOrderId st) in
      (true,
       showNotification ("Loaded template: " +:+ tpl_name template) Success
         (set_orders (<[orderId := tpl_items template]> (orders st)) st))
  end.

(** [findIndex]: the position of the first element passing the test. *)
Fixpoint findIndex {A} (f : A → bool) (l : list A) : option nat :=
  match l with
  | [] => None
  | x :: l' => if f x then Some 0 else S <$> findIndex f l'
  end.

Definition deleteTemplate (templateId : string) (st : CartManager)
  : bool * CartManager :=
  match findIndex (has_id templateId) (orderTemplates st) with
  | Some index =>
      let templateName :=
        match orderTemplates st !! index with
        | Some t => tpl_name t
        | None => EmptyString
        end in
      (true,
       showNotification ("Deleted template: " +:+ templateName) Info
         (set_orderTemplates (delete index (orderTemplates st)) st))
  | None => (false, st)
  end.

Definition getAllTemplates (st : CartManager) : list Template :=
  orderTemplates st.

(** The assignments of [updateTemplate] to the template object found. *)
Definition update_fields (e : env) (h : list Item) (newName : option string)
  (newItems : option (list loc)) (t : Template) : Template :=
  {| tpl_id := tpl_id t;
     tpl_name :=
       if truthy_string newName
       then sanitizeInput (trim (default EmptyString newName))
       else tpl_name t;
     tpl_items := default (tpl_items t) newItems;
     tpl_createdAt := tpl_createdAt t;
     tpl_total :=
       match newItems with
       | Some ls => reduce_total h ls
       | None => tpl_total t
       end;
     tpl_itemCount :=
       match newItems with
       | Some ls => reduce_count h ls
       | None => tpl_itemCount t
       end;
     tpl_updatedAt := Some (now e) |}.

(** [newItems] is an array of item objects the caller holds. *)
Definition updateTemplate (e : env) (templateId : string)
  (newName : option string) (newItems : option (list loc)) (st : CartManager)
  : bool * CartManager :=
  match findIndex (has_id templateId) (orderTemplates st) with
  | None => (false, st)
  | Some index =>
      (true,
       showNotification "Template updated successfully" Success
         (set_orderTemplates
            (alter (update_fields e (heap st) newName newItems) index
               (orderTemplates st)) st))
  end.

Definition duplicateTemplate (e : env) (templateId : string)
  (newName : option string) (st : CartManager)
  : option string * CartManager :=
  match getTemplate templateId st with
  | None => (None, st)
  | Some template =>
      let newTemplate :=
        {| tpl_id := generateOrderId e "template";
           tpl_name := or_string newName (tpl_name template +:+ " (Copy)");
           tpl_items := tpl_items template;
           tpl_createdAt := now e;
           tpl_total := tpl_total template;
           tpl_itemCount := tpl_itemCount template;
           tpl_updatedAt := tpl_updatedAt template |} in
      (Some (tpl_id newTemplate),
       showNotification ("Duplicated template as: " +:+ tpl_name newTemplate)
         Success
         (set_orderTemplates (orderTemplates st ++ [newTemplate]) st))
  end.

(** ** Sequences of operations *)

Inductive operation :=
  | AddItem (item : option descriptor)
  | RemoveItem (index : number)
  | UpdateQuantity (index : number) (quantity : primitive)
  | ClearCart
  | CreateOrder (name : option string)
  | SwitchToOrder (orderId : string)
  | DuplicateCurrentOrder
  | DeleteOrder (orderId : string)
  | RenameOrder (oldOrderId newOrderId : string)
  | SaveAsTemplate (templateName : option string)
  | LoadTemplate (templateId : string) (targetOrderId : option string)
  | DeleteTemplate (templateId : string)
  | UpdateTemplate (templateId : string) (newName : option string)
      (newItems : option (list loc))
  | DuplicateTemplate (templateId : string) (newName : option string).

(** The state after one call, whatever it returns. *)
Definition step (e : env) (o : operation) (st : CartManager) : CartManager :=
  match o with
  | AddItem item => (addItem e item st).2
  | RemoveItem index => removeItem index st
  | UpdateQuantity index quantity => updateQuantity index quantity st
  | ClearCart => clearCart st
  | CreateOrder name => (createOrder e name st).2
  | SwitchToOrder orderId => switchToOrder orderId st
  | DuplicateCurrentOrder => (duplicateCurrentOrder e st).2
  | DeleteOrder orderId => (deleteOrder orderId st).2
  | RenameOrder oldOrderId newOrderId =>
      (renameOrder oldOrderId newOrderId st).2
  | SaveAsTemplate templateName => (saveAsTemplate e templateName st).2
  | LoadTemplate templateId targetOrderId =>
      (loadTemplate templateId targetOrderId st).2
  | DeleteTemplate templateId => (deleteTemplate templateId st).2
  | UpdateTemplate templateId newName newItems =>
      (updateTemplate e templateId newName newItems st).2
  | DuplicateTemplate templateId newName =>
      (duplicateTemplate e templateId newName st).2
  end.

Definition run (calls : list (env * operation)) (st : CartManager)
  : CartManager :=
  fold_left (λ s c, step c.1 c.2 s) calls st.

(** Every location of a list is allocated in the heap [h]. *)
Definition allocated (h : list Item) (ls : list loc) : Prop :=
  Forall (λ l, l < length h) ls.

(** No order and no template refers to an object that was not allocated. *)
Definition heap_wf (st : CartManager) : Prop :=
  (∀ k ls, orders st !! k = Some ls → allocated (heap st) ls)
  ∧ Forall (λ t, allocated (heap st) (tpl_items t)) (orderTemplates st).

(** The item objects a caller passes are objects of the heap. *)
Definition allocated_arguments (o : operation) (st : CartManager) : Prop :=
  match o with
  | UpdateTemplate _ _ (Some ls) => allocated (heap st) ls
  | _ => True
  end.

(** The states of a page session: those the operations lead to from the
    state the constructor builds on an empty [localStorage]. *)
Inductive reachable : CartManager → Prop :=
  | reachable_new : reachable new_CartManager
  | reachable_step e o st :
      reachable st → allocated_arguments o st → reachable (step e o st).

(** ** What the specification calls the totals *)

(** The sum of a sequence of numbers, added from left to right to 0. *)
Definition sum_numbers (l : list number) : number := fold_left add l (Num 0).

(** The sum over the items of [price * quantity]. *)
Definition sum_price_quantity (items : list Item) : number :=
  sum_numbers (map (λ it, mul (item_price it) (item_quantity it)) items).

(** The sum over the items of [quantity]. *)
Definition sum_quantity (items : list Item) : number :=
  sum_numbers (map item_quantity items).

(** The invariant of the order store: the order [default] exists and the
    active order exists. *)
Definition store_inv (st : CartManager) : Prop :=
  is_Some (orders st !! "default")
  ∧ is_Some (orders st !! activeOrderId st).

(** Every location of the active order is allocated. *)
Definition cart_allocated (st : CartManager) : Prop :=
  allocated (heap st) (cart st).

(** The call renames the order [default]. *)
Definition renames_default (o : operation) : bool :=
  match o with
  | RenameOrder oldOrderId _ => bool_decide (oldOrderId = "default")
  | _ => false
  end.

(** The quantity [addItem] stores for a descriptor. *)
Definition coerced_quantity (d : descriptor) : number :=
  or_number (parseInt (d_quantity d)) (Num 1).

(** The descriptor passes the presence check of [addItem]. *)
Definition accepted (d : descriptor) : bool :=
  truthy_string (d_name d) && truthy_number (d_price d).

(** The rows of a cart with a given name and price. *)
Definition rows_with (name : string) (price : number) (items : list Item)
  : list Item :=
  filter (λ it, item_name it = name ∧ item_price it = price) items.

(** [addItem] called on each descriptor in turn. *)
Definition addItems (calls : list (env * descriptor)) (st : CartManager)
  : CartManager :=
  run (map (λ c, (c.1, AddItem (Some c.2))) calls) st.

(** The calls that add orders or change items only: the active order id
    stays and no order disappears. *)
Definition grows (st st' : CartManager) : Prop :=
  activeOrderId st' = activeOrderId st
  ∧ ∀ k, is_Some (orders st !! k) → is_Some (orders st' !! k).

(** The state after the first of the calls: the cart of [st0] followed by
    one new row of quantity [q]. *)
Definition merged (st0 st : CartManager) (name : string) (price : number)
  (q : number) : Prop :=
  activeOrderId st = activeOrderId st0
  ∧ orders st !! activeOrderId st0 = Some (cart st0 ++ [length (heap st0)])
  ∧ ∃ id, heap st
          = heap st0
            ++ [{| item_name := name; item_price := price;
                   item_quantity := q; item_id := id |}].

(** The descriptor passes the check and stands for the item [name] at
    [price]. *)
Definition stands_for (name : string) (price : number) (d : descriptor)
  : Prop :=
  accepted d = true
  ∧ sanitizeInput (default EmptyString (d_name d)) = name
  ∧ parseFloat (default NaN (d_price d)) = price.

(** What a template shows: the data of its items, its total and its count. *)
Definition template_view (st : CartManager) (t : Template)
  : list (string * number * number) * number * number :=
  (map (λ it, (item_name it, item_price it, item_quantity it))
     (items_of (heap st) (tpl_items t)),
   tpl_total t, tpl_itemCount t).

(** ** Sample states *)

(** An environment, and descriptors of a pizza. *)
Definition env0 : env := {| now := 1700000000000; random_suffix := "k3x9a" |}.

Definition pizza (quantity : primitive) : descriptor :=
  {| d_name := Some "Pizza"; d_price := Some (Num 250);
     d_quantity := quantity; d_id := None |}.

Definition free_pizza : descriptor :=
  {| d_name := Some "Pizza"; d_price := Some (Num 0);
     d_quantity := Number (Num 1); d_id := None |}.

(** A state with two orders, [default] and [lunch]. *)
Definition two_orders : CartManager :=
  (createOrder env0 (Some "lunch") new_CartManager).2.

(** The state after [renameOrder("default", "lunch")] on a new manager. *)
Definition renamed_default : CartManager :=
  (renameOrder "default" "lunch" new_CartManager).2.

(** Two pizzas in the cart, saved as the template [T]. *)
Definition saved_T : CartManager :=
  (saveAsTemplate env0 (Some "T")
     (addItem env0 (Some (pizza (Number (Num 2)))) new_CartManager).2).2.

Definition template_T (st : CartManager) : option Template :=
  getTemplate "template-1700000000000-k3x9a" st.

(** A burger is in the cart. *)
Definition with_burger : CartManager :=
  (addItem env0
     (Some {| d_name := Some "Burger"; d_price := Some (Num 120);
              d_quantity := Number (Num 1); d_id := Some "b1" |})
     new_CartManager).2.

(** Three calls for the pizza: quantities [2], ["3 large"] and none. *)
Definition three_pizza_calls : list (env * descriptor) :=
  [(env0, pizza (Number (Num 2)));
   (env0, pizza (Str "3 large"));
   (env0, pizza Undefined)].

(** A later instant. *)
Definition env1 : env := {| now := 1700000000001; random_suffix := "k3x9a" |}.

(** ** Rows and quantities *)

(** What [addItem] compares: the name and the price of a row. *)
Definition item_key (it : Item) : string * number :=
  (item_name it, item_price it).

(** The keys of the rows that [===] can match: the price [NaN] differs
    from every price, itself included. *)
Definition keys (h : list Item) (ls : list loc) : list (string * number) :=
  filter (λ k, k.2 ≠ NaN) (item_key <$> items_of h ls).

(** No order and no template holds two rows that the test of [addItem]
    takes for the same item: two rows of the same name whose prices are
    [===]. *)
Definition rows_distinct (st : CartManager) : Prop :=
  (∀ k ls, orders st !! k = Some ls → NoDup (keys (heap st) ls))
  ∧ Forall (λ t, NoDup (keys (heap st) (tpl_items t))) (orderTemplates st).

(** No two of the item objects a caller passes have the same name and
    prices that are [===]. *)
Definition distinct_arguments (o : operation) (st : CartManager) : Prop :=
  match o with
  | UpdateTemplate _ _ (Some ls) => NoDup (keys (heap st) ls)
  | _ => True
  end.

(** A quantity that is an integer and at least 1. *)
Definition positive (q : number) : Prop := ∃ z, q = Num z ∧ (0 < z)%Z.

(** Every item object has a positive quantity. *)
Definition quantities_positive (st : CartManager) : Prop :=
  Forall (λ it, positive (item_quantity it)) (heap st).

(** The call is an accepted [addItem] whose quantity parses to a negative
    integer. *)
Definition adds_negative (o : operation) : bool :=
  match o with
  | AddItem (Some d) => accepted d && ltb (parseInt (d_quantity d)) (Num 0)
  | _ => false
  end.

(** ** Clicks in the cart *)

(** [a - b] on numbers. *)
Definition sub (a b : number) : number :=
  match a, b with
  | Num x, Num y => Num (x - y)
  | _, _ => NaN
  end.

(** The element a click in the cart hits: whether it has the classes
    [remove-item] and [quantity-btn], and its attributes [data-action] and
    [data-index]. *)
Record click_target := {
  has_remove_item : bool;
  has_quantity_btn : bool;
  data_action : option string;
  data_index : primitive
}.

(** [this.cart[index]] for a number: [undefined] unless the index is an
    integer within the array. *)
Definition cart_at (index : number) (st : CartManager) : option loc :=
  match index with
  | Num z => if bool_decide (0 ≤ z)%Z then cart st !! Z.to_nat z else None
  | NaN => None
  end.

(** The listener [bindEvents] puts on the cart. *)
Definition cartClick (target : click_target) (st : CartManager)
  : CartManager :=
  let index := parseInt (data_index target) in
  if has_remove_item target then removeItem index st
  else if has_quantity_btn target then
    match cart_at index st ≫= (λ l, heap st !! l) with
    | Some item =>
        let newQuantity :=
          if bool_decide (data_action target = Some "increase")
          then add (item_quantity item) (Num 1)
          else sub (item_quantity item) (Num 1) in
        updateQuantity index (Number newQuantity) st
    | None => st
    end
  else st.

(** The index is no position of the cart. *)
Definition out_of_range (index : number) (st : CartManager) : Prop :=
  ∀ i, index = Num (Z.of_nat i) → length (cart st) ≤ i.

(** ** Characters of a string *)

Definition chars (s : string) : list ascii := list_ascii_of_string s.

(** The characters [sanitizeInput] rewrites. *)
Definition is_special (c : ascii) : bool :=
  let n := code c in ((n =? 38) || (n =? 60) || (n =? 62) || (n =? 160))%N.

(** ** Regular expressions *)

(** The patterns of the source use classes of characters, sequence, choice
    and repetition, between [^] and [$]: [test] then tells whether the whole
    string belongs to the language of the pattern. *)
Inductive regex :=
  | Void
  | Eps
  | Class (p : ascii → bool)
  | Cat (r1 r2 : regex)
  | Alt (r1 r2 : regex)
  | Star (r : regex).

Fixpoint nullable (r : regex) : bool :=
  match r with
  | Void => false
  | Eps => true
  | Class _ => false
  | Cat r1 r2 => nullable r1 && nullable r2
  | Alt r1 r2 => nullable r1 || nullable r2
  | Star _ => true
  end.

(** The pattern of the rests of the strings of [r] that start with [c]. *)
Fixpoint derivative (c : ascii) (r : regex) : regex :=
  match r with
  | Void => Void
  | Eps => Void
  | Class p => if p c then Eps else Void
  | Cat r1 r2 =>
      if nullable r1
      then Alt (Cat (derivative c r1) r2) (derivative c r2)
      else Cat (derivative c r1) r2
  | Alt r1 r2 => Alt (derivative c r1) (derivative c r2)
  | Star r1 => Cat (derivative c r1) (Star r1)
  end.

Fixpoint accepts (r : regex) (s : list ascii) : bool :=
  match s with
  | [] => nullable r
  | c :: s' => accepts (derivative c r) s'
  end.

(** [/^r$/.test(s)]. *)
Definition test (r : regex) (s : string) : bool := accepts r (chars s).

(** [r+], [r?], [r{n}] and [r{n,}]. *)
Definition plus (r : regex) : regex := Cat r (Star r).

Definition opt (r : regex) : regex := Alt Eps r.

Fixpoint times (n : nat) (r : regex) : regex :=
  match n with
  | 0 => Eps
  | S n' => Cat r (times n' r)
  end.

Definition at_least (n : nat) (r : regex) : regex := Cat (times n r) (Star r).

(** The strings of a pattern. *)
Inductive matches : regex → list ascii → Prop :=
  | matches_eps : matches Eps []
  | matches_class p c : p c = true → matches (Class p) [c]
  | matches_cat r1 r2 s1 s2 :
      matches r1 s1 → matches r2 s2 → matches (Cat r1 r2) (s1 ++ s2)
  | matches_alt_l r1 r2 s : matches r1 s → matches (Alt r1 r2) s
  | matches_alt_r r1 r2 s : matches r2 s → matches (Alt r1 r2) s
  | matches_star_nil r : matches (Star r) []
  | matches_star_cons r s1 s2 :
      matches r s1 → matches (Star r) s2 → matches (Star r) (s1 ++ s2).

(** ** Form validation *)

Definition is_char (c : ascii) (x : ascii) : bool := bool_decide (x = c).

Definition is_digit (c : ascii) : bool :=
  ((48 <=? code c) && (code c <=? 57))%N.

Definition is_letter (c : ascii) : bool :=
  ((97 <=? code c) && (code c <=? 122) || (65 <=? code c) && (code c <=? 90))%N.

(** [[^\s@]]. *)
Definition email_char (c : ascii) : bool :=
  negb (is_whitespace c) && negb (is_char "@" c).

(** [[\d\s-()]]. *)
Definition phone_char (c : ascii) : bool :=
  is_digit c || is_whitespace c || is_char "-" c || is_char "(" c
  || is_char ")" c.

(** [[a-zA-Z0-9._-]] and [[a-zA-Z0-9.-]]. *)
Definition upi_user_char (c : ascii) : bool :=
  is_letter c || is_digit c || is_char "." c || is_char "_" c
  || is_char "-" c.

Definition upi_host_char (c : ascii) : bool :=
  is_letter c || is_digit c || is_char "." c || is_char "-" c.

(** [/^[^\s@]+@[^\s@]+\.[^\s@]+$/]. *)
Definition emailRegex : regex :=
  Cat (plus (Class email_char))
    (Cat (Class (is_char "@"))
       (Cat (plus (Class email_char))
          (Cat (Class (is_char ".")) (plus (Class email_char))))).

(** [/^[+]?[\d\s-()]{10,}$/]. *)
Definition phoneRegex : regex :=
  Cat (opt (Class (is_char "+"))) (at_least 10 (Class phone_char)).

(** [/^[0-9]{6}$/]. *)
Definition pincodeRegex : regex := times 6 (Class is_digit).

(** [/^[a-zA-Z0-9._-]+@[a-zA-Z0-9.-]+\.[a-zA-Z]{2,}$/]. *)
Definition upiRegex : regex :=
  Cat (plus (Class upi_user_char))
    (Cat (Class (is_char "@"))
       (Cat (plus (Class upi_host_char))
          (Cat (Class (is_char ".")) (at_least 2 (Class is_letter))))).

Definition validateEmail (email : string) : bool := test emailRegex email.

Definition validatePhone (phone : string) : bool := test phoneRegex phone.

Definition validatePassword (password : string) : bool :=
  bool_decide (6 ≤ String.length password).

(** [value && value.trim().length > 0], as a condition. *)
Definition validateRequired (value : string) : bool :=
  negb (bool_decide (value = EmptyString))
  && bool_decide (0 < String.length (trim value)).

Definition validateUPI (upiId : string) : bool := test upiRegex upiId.

(** What [validateField] reads of a form field: its value, its name and id,
    and whether it has the attribute [required]. *)
Record field := {
  f_value : string;
  f_name : string;
  f_id : string;
  f_required : bool
}.

Definition labelMap : list (string * string) :=
  [("name", "Name"); ("email", "Email"); ("phone", "Phone");
   ("address", "Address"); ("street", "Street Address");
   ("village", "Village/Locality"); ("district", "District");
   ("state", "State"); ("country", "Country"); ("pincode", "Pin Code");
   ("upi-id", "UPI ID"); ("password", "Password");
   ("payment", "Payment Method")].

Definition assoc (k : string) (l : list (string * string)) : option string :=
  snd <$> find (λ p, bool_decide (p.1 = k)) l.

(** [labelMap[fieldName.toLowerCase()] || fieldName]; field names that name
    a property every object inherits are outside the model. *)
Definition getFieldLabel (fieldName : string) : string :=
  or_string (assoc (toLowerCase fieldName) labelMap) fieldName.

(** The result of [validateField], with the error it shows under the field:
    the former error is cleared first, so [None] is a field without
    error. *)
Definition validateField (f : field) : bool * option string :=
  let value := trim (f_value f) in
  let fieldName := if bool_decide (f_name f = EmptyString)
                   then f_id f else f_name f in
  let nonempty := negb (bool_decide (value = EmptyString)) in
  let kind := toLowerCase fieldName in
  if f_required f && negb (validateRequired value) then
    (false, Some (getFieldLabel fieldName +:+ " is required"))
  else if bool_decide (kind = "email") then
    if nonempty && negb (validateEmail value)
    then (false, Some "Please enter a valid email address")
    else (true, None)
  else if bool_decide (kind = "phone") then
    if nonempty && negb (validatePhone value)
    then (false, Some "Please enter a valid phone number")
    else (true, None)
  else if bool_decide (kind = "password") then
    if nonempty && negb (validatePassword value)
    then (false, Some "Password must be at least 6 characters long")
    else (true, None)
  else if bool_decide (kind = "pincode") then
    if nonempty && negb (test pincodeRegex value)
    then (false, Some "Please enter a valid 6-digit pin code")
    else (true, None)
  else if bool_decide (kind = "upi-id") then
    if nonempty && negb (validateUPI value)
    then (false, Some "Please enter a valid UPI ID (e.g., username@upi)")
    else (true, None)
  else (true, None).

(** [trimStart] on the characters of a string. *)
Fixpoint drop_whitespace (l : list ascii) : list ascii :=
  match l with
  | c :: l' => if is_whitespace c then drop_whitespace l' else l
  | [] => []
  end.

(** ** The delivery address *)

(** The fields of the order form [buildFullAddress] reads; an absent field
    is [None]. *)
Record orderData := {
  od_street : option string;
  od_village : option string;
  od_district : option string;
  od_state : option string;
  od_country : option string;
  od_pincode : option string
}.

(** [parts.join(sep)]. *)
Definition join (sep : string) (parts : list string) : string :=
  match parts with
  | [] => EmptyString
  | p :: ps => fold_left (λ acc q, acc +:+ sep +:+ q) ps p
  end.

(** [if (v) addressParts.push(f(v))]. *)
Definition push_if (v : option string) (f : string → string)
  (addressParts : list string) : list string :=
  if truthy_string v then addressParts ++ [f (default EmptyString v)]
  else addressParts.

Definition buildFullAddress (d : orderData) : string :=
  let addressParts := [] in
  let addressParts := push_if (od_street d) (λ s, s) addressParts in
  let addressParts := push_if (od_village d) (λ s, s) addressParts in
  let addressParts := push_if (od_district d) (λ s, s) addressParts in
  let addressParts := push_if (od_state d) (λ s, s) addressParts in
  let addressParts := push_if (od_country d) (λ s, s) addressParts in
  let addressParts :=
    push_if (od_pincode d) (λ s, "Pin Code: " +:+ s) addressParts in
  join ", " addressParts.

(** ** Signing up and logging in *)

(** [s.split('@')[0]]: the characters before the first [@]. *)
Fixpoint before_at (s : string) : string :=
  match s with
  | String c s' =>
      if bool_decide (c = "@"%char) then EmptyString
      else String c (before_at s')
  | EmptyString => EmptyString
  end.

Record user := {
  user_email : string;
  user_name : string;
  user_loginTime : Z
}.

(** The notification [handleSignup] ends with, for the fields [name],
    [email] and [password] of the form.  [simulateSignup] rejects only
    when a field is empty. *)
Definition handleSignup (name email password : option string)
  : string * severity :=
  if negb (truthy_string name) || negb (truthy_string email)
     || negb (truthy_string password)
  then ("Please fill in all fields", Error)
  else if negb (validateEmail (default EmptyString email))
  then ("Please enter a valid email address", Error)
  else if negb (validatePassword (default EmptyString password))
  then ("Password must be at least 6 characters long", Error)
  else if truthy_string name && truthy_string email
          && truthy_string password
  then ("Account created successfully!", Success)
  else ("Failed to create account", Error).

(** The session [handleLogin] saves, if any, and the notification it ends
    with, for the fields [email] and [password] of the form.
    [simulateLogin] rejects only when a field is empty. *)
Definition handleLogin (e : env) (email password : option string)
  : option user * (string * severity) :=
  if negb (truthy_string email) || negb (truthy_string password)
  then (None, ("Please fill in all fields", Error))
  else if truthy_string email && truthy_string password
  then (Some {| user_email := default EmptyString email;
                user_name := before_at (default EmptyString email);
                user_loginTime := now e |},
        ("Login successful!", Success))
  else (None, ("Invalid credentials", Error)).

(** ** Sample clicks and fields *)

(** The burger of [with_burger]. *)
Definition burger : Item :=
  {| item_name := "Burger"; item_price := Num 120;
     item_quantity := Num 1; item_id := "b1" |}.

(** The button [-] of the first row. *)
Definition minus_first : click_target :=
  {| has_remove_item := false; has_quantity_btn := true;
     data_action := Some "decrease"; data_index := Str "0" |}.

(** A button of a sixth row. *)
Definition plus_sixth : click_target :=
  {| has_remove_item := false; has_quantity_btn := true;
     data_action := Some "increase"; data_index := Str "5" |}.

(** ** Order ids that name an inherited property *)

(** [this.orders] is an object literal, or what [JSON.parse] builds from
    one: besides its own properties it has those of [Object.prototype],
    under these names. *)
Definition Object_prototype : list string :=
  ["constructor"; "__defineGetter__"; "__defineSetter__"; "hasOwnProperty";
   "__lookupGetter__"; "__lookupSetter__"; "isPrototypeOf";
   "propertyIsEnumerable"; "toString"; "valueOf"; "__proto__";
   "toLocaleString"].

Definition inherited (id : string) : bool :=
  bool_decide (id ∈ Object_prototype).

(** The order ids a call names are no names of inherited properties. *)
Definition plain_ids (o : operation) : bool :=
  match o with
  | CreateOrder name => negb (inherited (default EmptyString name))
  | SwitchToOrder orderId => negb (inherited orderId)
  | DeleteOrder orderId => negb (inherited orderId)
  | RenameOrder oldOrderId newOrderId =>
      negb (inherited oldOrderId) && negb (inherited newOrderId)
  | LoadTemplate _ targetOrderId =>
      negb (inherited (default EmptyString targetOrderId))
  | _ => true
  end.

Module Lookup.

(** What [this.orders[id]] evaluates to: the array stored under the id, the
    property of [Object.prototype] of that name (a function, or the
    prototype itself for [__proto__]), or [undefined]. *)
Inductive value :=
  | Items (items : list loc)
  | Inherited (name : string)
  | Absent.

Definition get (st : CartManager) (id : string) : value :=
  match orders st !! id with
  | Some items => Items items
  | None => if inherited id then Inherited id else Absent
  end.

(** A value used as a condition: arrays, functions and objects are
    truthy. *)
Definition truthy (v : value) : bool :=
  match v with
  | Absent => false
  | _ => true
  end.

(** [this.orders[orderId]] used as a condition. *)
Definition has_order (st : CartManager) (orderId : string) : bool :=
  truthy (get st orderId).

(** [get cart()]: [this.orders[this.activeOrderId] || []]. *)
Definition cart (st : CartManager) : value :=
  match get st (activeOrderId st) with
  | Absent => Items []
  | v => v
  end.

(** A call returns a value or throws a [TypeError]. *)
Inductive result (A : Type) :=
  | Returns (a : A)
  | TypeError.

Arguments Returns {A} a.
Arguments TypeError {A}.

(** [this.cart.reduce(...)]: only an array has the method [reduce]. *)
Definition getTotal (st : CartManager) : result number :=
  match cart st with
  | Items items => Returns (reduce_total (heap st) items)
  | _ => TypeError
  end.

Definition getItemCount (st : CartManager) : result number :=
  match cart st with
  | Items items => Returns (reduce_count (heap st) items)
  | _ => TypeError
  end.

(** [updateCartDisplay] reads the cart with [getItemCount], [getTotal],
    [map] and [length], for the elements the page has.  On an array it
    returns.  On another value whether it returns or throws depends on the
    markup of the page, which is not part of the sources: [display st]
    tells whether it returns in the state [st]. *)
Definition updateCartDisplay (display : CartManager → bool)
  (st : CartManager) : bool :=
  match cart st with
  | Items _ => true
  | _ => display st
  end.

(** The calls below give their result with the state they end in, whether
    they return or throw. *)
Definition switchToOrder (display : CartManager → bool) (orderId : string)
  (st : CartManager) : result unit * CartManager :=
  if has_order st orderId then
    let st1 := set_activeOrderId orderId st in
    if updateCartDisplay display st1 then
      (Returns tt,
       showNotification ("Switched to order: " +:+ orderId) Info st1)
    else (TypeError, st1)
  else
    (Returns tt,
     showNotification ("Order not found: " +:+ orderId) Error st).

Definition createOrder (display : CartManager → bool) (e : env)
  (name : option string) (st : CartManager) : result string * CartManager :=
  let orderId := or_string name (generateOrderId e "order") in
  if negb (has_order st orderId) then
    let switched :=
      switchToOrder display orderId
        (set_orders (<[orderId := []]> (orders st)) st) in
    match switched.1 with
    | Returns _ =>
        (Returns orderId,
         showNotification ("Created new order: " +:+ orderId) Success
           switched.2)
    | TypeError => (TypeError, switched.2)
    end
  else (Returns orderId, st).

Definition deleteOrder (display : CartManager → bool) (orderId : string)
  (st : CartManager) : result bool * CartManager :=
  if bool_decide (orderId = "default") then
    (Returns false, showNotification "Cannot delete default order" Error st)
  else if has_order st orderId then
    let st1 := set_orders (delete orderId (orders st)) st in
    let switched :=
      if bool_decide (activeOrderId st1 = orderId)
      then switchToOrder display "default" st1
      else (Returns tt, st1) in
    match switched.1 with
    | Returns _ =>
        (Returns true,
         showNotification ("Deleted order: " +:+ orderId) Info switched.2)
    | TypeError => (TypeError, switched.2)
    end
  else (Returns false, st).

End Lookup.

(** [getOrderSummary]: [this.orders[targetOrderId] || []] is the array
    stored under the id, an empty array when the id names nothing, and for
    an inherited name a value without the method [reduce]. *)
Definition getOrderSummary (orderId : option string) (st : CartManager)
  : Lookup.result OrderSummary :=
  let targetOrderId := or_string orderId (activeOrderId st) in
  let summary items :=
    {| sum_orderId := targetOrderId;
       sum_itemCount := reduce_count (heap st) items;
       sum_total := reduce_total (heap st) items;
       sum_items := items |} in
  match Lookup.get st targetOrderId with
  | Lookup.Items items => Lookup.Returns (summary items)
  | Lookup.Absent => Lookup.Returns (summary [])
  | Lookup.Inherited _ => Lookup.TypeError
  end.

(** ** More sample states *)

Definition burger_descriptor : descriptor :=
  {| d_name := Some "Burger"; d_price := Some (Num 120);
     d_quantity := Number (Num 1); d_id := Some "b1" |}.

(** The order [lunch] is active and holds a burger. *)
Definition lunch_with_burger : CartManager :=
  (addItem env0 (Some burger_descriptor) two_orders).2.

(** A session: an order [lunch] is created, gets two pizzas, is renamed
    and deleted. *)
Definition lunch_session : list (env * operation) :=
  [(env0, CreateOrder (Some "lunch"));
   (env0, AddItem (Some (pizza (Number (Num 2)))));
   (env1, RenameOrder "lunch" "dinner");
   (env1, DeleteOrder "dinner")].

(** After [renameOrder("default", "lunch")] and [deleteOrder("lunch")]: no
    order is left and [lunch] is still the active order id. *)
Definition without_active_order : CartManager :=
  (deleteOrder "lunch" renamed_default).2.

(** Two calls for the pizza in that state: quantities 2 and 3. *)
Definition two_pizza_calls : list (env * descriptor) :=
  [(env0, pizza (Number (Num 2))); (env1, pizza (Number (Num 3)))].

(** Two pizzas saved as the template [A], then a burger in the cart. *)
Definition pizza_and_burger : CartManager :=
  (addItem env0 (Some burger_descriptor)
     (saveAsTemplate env0 (Some "A")
        (addItem env0 (Some (pizza (Number (Num 2)))) new_CartManager).2).2).2.

(** The cart saved as [T] while the clock and the random suffix are those
    of the template [A], then cleared, then loaded from the id that
    [saveAsTemplate] returned: that id, and what [loadTemplate] gives. *)
Definition colliding_round_trip : option string * (bool * CartManager) :=
  let saved := saveAsTemplate env0 (Some "T") pizza_and_burger in
  (saved.1,
   loadTemplate (default EmptyString saved.1) None (clearCart saved.2)).

(** ** Numbers *)

Section Numbers.

Implicit Types a b c : number.

Lemma add_0_l a : add (Num 0) a = a.
Proof. by destruct a. Qed.

Lemma strict_eq_true a b : strict_eq a b = true ↔ a = b ∧ a ≠ NaN.
Proof.
  destruct a as [|x], b as [|y]; simpl.
  - split; [done | by intros [_ []]].
  - split; [done | by intros [_ []]].
  - split; [done | by intros [? _]].
  - rewrite bool_decide_eq_true. split.
    + by intros ->.
    + intros [? _]. congruence.
Qed.

End Numbers.

(** ** The reductions compute the sums *)

Section Totals.

Variable h : list Item.

(** A [reduce] over an array of references is the fold over the objects
    they refer to, whatever the function folded. *)
Lemma fold_left_items {A} (f : A → Item → A) (ls : list loc) (acc : A) :
  fold_left
    (λ a l, match h !! l with Some item => f a item | None => a end) ls acc
  = fold_left f (items_of h ls) acc.
Proof.
  revert acc. induction ls as [|l ls IH]; intros acc; [done|].
  unfold items_of in *. simpl. destruct (h !! l); simpl; apply IH.
Qed.

Lemma fold_left_add_map {A} (g : A → number) (l : list A) (acc : number) :
  fold_left (λ a x, add a (g x)) l acc = fold_left add (map g l) acc.
Proof.
  revert acc. induction l as [|x l IH]; intros acc; simpl; [done|]. apply IH.
Qed.

Lemma reduce_total_sum (ls : list loc) :
  reduce_total h ls = sum_price_quantity (items_of h ls).
Proof.
  unfold reduce_total, sum_price_quantity, sum_numbers.
  rewrite <- fold_left_add_map. apply fold_left_items.
Qed.

Lemma reduce_count_sum (ls : list loc) :
  reduce_count h ls = sum_quantity (items_of h ls).
Proof.
  unfold reduce_count, sum_quantity, sum_numbers.
  rewrite <- fold_left_add_map. apply fold_left_items.
Qed.

End Totals.

Lemma getTotal_sum (st : CartManager) :
  getTotal st = sum_price_quantity (cart_items st).
Proof. apply reduce_total_sum. Qed.

Lemma getItemCount_sum (st : CartManager) :
  getItemCount st = sum_quantity (cart_items st).
Proof. apply reduce_count_sum. Qed.

(** ** Lookups in the orders *)

Lemma inherited_false (id : string) :
  inherited id = false ↔ id ∉ Object_prototype.
Proof. unfold inherited. apply bool_decide_eq_false. Qed.

(** A generated id names no inherited property. *)
Lemma inherited_generateOrderId (e : env) :
  inherited (generateOrderId e "order") = false.
Proof.
  apply inherited_false. unfold generateOrderId, Object_prototype. simpl.
  intros H. repeat (apply elem_of_cons in H as [H|H]; [discriminate H|]).
  by apply elem_of_nil in H.
Qed.

(** The test of the source passes for the ids of the orders and for every
    inherited name, and for no other id. *)
Lemma has_order_spec (st : CartManager) (id : string) :
  Lookup.has_order st id = true
  ↔ is_Some (orders st !! id) ∨ inherited id = true.
Proof.
  unfold Lookup.has_order, Lookup.get.
  destruct (orders st !! id) as [items|]; simpl.
  - split; [intros _; left; by exists items | done].
  - destruct (inherited id); simpl.
    + split; [by right | done].
    + split; [done | by intros [[? ?]|?]].
Qed.

(** For an id that names no inherited property it tells whether the order
    exists. *)
Lemma has_order_plain (st : CartManager) (id : string) :
  inherited id = false → Lookup.has_order st id = has_order st id.
Proof.
  intros H. unfold Lookup.has_order, Lookup.get, has_order. rewrite H.
  by destruct (orders st !! id).
Qed.

(** The getter gives the array [cart] unless the active order id names an
    inherited property and no order. *)
Lemma cart_plain (st : CartManager) :
  is_Some (orders st !! activeOrderId st)
  ∨ inherited (activeOrderId st) = false →
  Lookup.cart st = Lookup.Items (cart st).
Proof.
  unfold Lookup.cart, Lookup.get, cart.
  destruct (orders st !! activeOrderId st) as [items|]; [done|].
  intros [[? ?]| ->]; done.
Qed.

Lemma updateCartDisplay_plain (display : CartManager → bool)
  (st : CartManager) :
  is_Some (orders st !! activeOrderId st)
  ∨ inherited (activeOrderId st) = false →
  Lookup.updateCartDisplay display st = true.
Proof.
  intros H. unfold Lookup.updateCartDisplay. by rewrite cart_plain.
Qed.

Lemma switchToOrder_stored (display : CartManager → bool)
  (orderId : string) (st : CartManager) :
  is_Some (orders st !! orderId) →
  Lookup.switchToOrder display orderId st
  = (Lookup.Returns tt,
     showNotification ("Switched to order: " +:+ orderId) Info
       (set_activeOrderId orderId st)).
Proof.
  intros [items Hitems]. unfold Lookup.switchToOrder.
  rewrite (proj2 (has_order_spec st orderId)) by (left; by exists items).
  rewrite updateCartDisplay_plain; [done|]. left. simpl. by exists items.
Qed.

Lemma switchToOrder_absent (display : CartManager → bool)
  (orderId : string) (st : CartManager) :
  orders st !! orderId = None → inherited orderId = false →
  Lookup.switchToOrder display orderId st
  = (Lookup.Returns tt,
     showNotification ("Order not found: " +:+ orderId) Error st).
Proof.
  intros Hnone Hplain.
  unfold Lookup.switchToOrder, Lookup.has_order, Lookup.get.
  by rewrite Hnone, Hplain.
Qed.

(** On the ids that name no inherited property the calls are the ones
    defined on the stored orders, and they return. *)
Lemma switchToOrder_plain (display : CartManager → bool) (orderId : string)
  (st : CartManager) :
  inherited orderId = false →
  Lookup.switchToOrder display orderId st
  = (Lookup.Returns tt, switchToOrder orderId st).
Proof.
  intros Hplain. unfold Lookup.switchToOrder, switchToOrder.
  rewrite has_order_plain by done.
  destruct (has_order st orderId); [|done].
  rewrite updateCartDisplay_plain; [done|]. by right.
Qed.

Lemma createOrder_plain (display : CartManager → bool) (e : env)
  (name : option string) (st : CartManager) :
  inherited (default EmptyString name) = false →
  Lookup.createOrder display e name st
  = (Lookup.Returns (createOrder e name st).1, (createOrder e name st).2).
Proof.
  intros Hplain.
  assert (Hid : inherited (or_string name (generateOrderId e "order"))
                = false).
  { destruct name as [n|]; simpl in *;
      [case_bool_decide|]; try done; apply inherited_generateOrderId. }
  unfold Lookup.createOrder, createOrder.
  rewrite has_order_plain by done.
  destruct (has_order st _); [done|]. simpl.
  by rewrite switchToOrder_plain.
Qed.

Lemma deleteOrder_plain (display : CartManager → bool) (orderId : string)
  (st : CartManager) :
  inherited orderId = false →
  Lookup.deleteOrder display orderId st
  = (Lookup.Returns (deleteOrder orderId st).1, (deleteOrder orderId st).2).
Proof.
  intros Hplain. unfold Lookup.deleteOrder, deleteOrder.
  case_bool_decide; [done|].
  rewrite has_order_plain by done.
  destruct (has_order st orderId); [|done]. simpl.
  case_bool_decide; [|done].
  by rewrite switchToOrder_plain.
Qed.

(** While the active order id is the id of a stored order, [getTotal()] is
    the sum over the items of that order of [price * quantity] and
    [getItemCount()] the sum of their quantities, each added from left to
    right. *)
Lemma totals_of_active_order (st : CartManager) (items : list loc) :
  orders st !! activeOrderId st = Some items →
  Lookup.getTotal st
  = Lookup.Returns (sum_price_quantity (items_of (heap st) items))
  ∧ Lookup.getItemCount st
    = Lookup.Returns (sum_quantity (items_of (heap st) items))
  ∧ getTotal st = sum_price_quantity (items_of (heap st) items)
  ∧ getItemCount st = sum_quantity (items_of (heap st) items).
Proof.
  intros Hitems.
  unfold Lookup.getTotal, Lookup.getItemCount, Lookup.cart, Lookup.get.
  unfold getTotal, getItemCount, cart. rewrite Hitems. simpl.
  by rewrite reduce_total_sum, reduce_count_sum.
Qed.

(** When the active order id names neither an order nor an inherited
    property, both are 0. *)
Lemma totals_without_active_order (st : CartManager) :
  orders st !! activeOrderId st = None →
  inherited (activeOrderId st) = false →
  Lookup.getTotal st = Lookup.Returns (Num 0)
  ∧ Lookup.getItemCount st = Lookup.Returns (Num 0).
Proof.
  intros Hnone Hplain.
  unfold Lookup.getTotal, Lookup.getItemCount, Lookup.cart, Lookup.get.
  by rewrite Hnone, Hplain.
Qed.

(** C2. On a new manager, whatever the page shows, [switchToOrder] called
    with ["constructor"] finds the property of that name which
    [this.orders] inherits, although no order has this id, and makes it
    the active order id.  The getter [cart] then gives that property, which
    is no array, and [getTotal()] and [getItemCount()] throw a [TypeError]
    where the sums over the items of the active order are to be
    returned. *)
Theorem totals_throw_after_switchToOrder (display : CartManager → bool) :
  orders new_CartManager !! "constructor" = None
  ∧ activeOrderId
      (Lookup.switchToOrder display "constructor" new_CartManager).2
    = "constructor"
  ∧ orders (Lookup.switchToOrder display "constructor" new_CartManager).2
    = orders new_CartManager
  ∧ heap (Lookup.switchToOrder display "constructor" new_CartManager).2 = []
  ∧ Lookup.cart (Lookup.switchToOrder display "constructor" new_CartManager).2
    = Lookup.Inherited "constructor"
  ∧ Lookup.getTotal
      (Lookup.switchToOrder display "constructor" new_CartManager).2
    = Lookup.TypeError
  ∧ Lookup.getItemCount
      (Lookup.switchToOrder display "constructor" new_CartManager).2
    = Lookup.TypeError.
Proof.
  split; [reflexivity|].
  assert (H : Lookup.has_order new_CartManager "constructor" = true)
    by reflexivity.
  unfold Lookup.switchToOrder. rewrite H.
  destruct (Lookup.updateCartDisplay _ _); repeat split; reflexivity.
Qed.

(** ** Refused calls *)

(** C7. [deleteOrder("default")] returns [false], shows an error
    notification and changes neither the orders, nor the items they refer
    to, nor the active order id. *)
Theorem deleteOrder_default_refused (st : CartManager) :
  (deleteOrder "default" st).1 = false
  ∧ notifications (deleteOrder "default" st).2
    = notifications st ++ [("Cannot delete default order", Error)]
  ∧ orders (deleteOrder "default" st).2 = orders st
  ∧ heap (deleteOrder "default" st).2 = heap st
  ∧ activeOrderId (deleteOrder "default" st).2 = activeOrderId st.
Proof. unfold deleteOrder. by rewrite bool_decide_eq_true_2. Qed.

Lemma has_order_true (st : CartManager) (orderId : string) :
  has_order st orderId = true ↔ is_Some (orders st !! orderId).
Proof. unfold has_order. apply bool_decide_eq_true. Qed.

Lemma has_order_false (st : CartManager) (orderId : string) :
  has_order st orderId = false ↔ orders st !! orderId = None.
Proof.
  unfold has_order. rewrite bool_decide_eq_false.
  by rewrite eq_None_not_Some.
Qed.

(** C9. When the order [b] exists, [renameOrder(a, b)] returns [false] and
    leaves the whole state as it was: the items under [a] and under [b] and
    the active order id. *)
Theorem renameOrder_taken_fails (a b : string) (st : CartManager) :
  is_Some (orders st !! b) → renameOrder a b st = (false, st).
Proof.
  intros Hb. unfold renameOrder.
  destruct (orders st !! a); [|done].
  apply has_order_true in Hb. by rewrite Hb.
Qed.

Lemma renameOrder_taken_fails_witness :
  is_Some (orders two_orders !! "default")
  ∧ renameOrder "lunch" "default" two_orders = (false, two_orders).
Proof.
  assert (H : is_Some (orders two_orders !! "default")).
  { exists []. reflexivity. }
  split; [exact H | exact (renameOrder_taken_fails "lunch" "default" _ H)].
Defined.

(** A descriptor that fails the presence check changes nothing. *)
Lemma addItem_rejected (e : env) (d : descriptor) (st : CartManager) :
  accepted d = false → addItem e (Some d) st = (false, st).
Proof.
  unfold accepted, addItem.
  by destruct (truthy_string (d_name d)), (truthy_number (d_price d)).
Qed.

(** C10. A descriptor whose price is [0], or whose name is the empty string,
    is rejected: [addItem] returns [false] and the state is unchanged. *)
Theorem addItem_rejects_falsy (e : env) (d : descriptor) (st : CartManager) :
  d_price d = Some (Num 0) ∨ d_name d = Some EmptyString →
  addItem e (Some d) st = (false, st).
Proof.
  intros H. apply addItem_rejected. unfold accepted.
  destruct H as [H|H]; rewrite H; simpl; [apply andb_false_r | done].
Qed.

Lemma addItem_rejects_falsy_witness :
  addItem env0 (Some free_pizza) new_CartManager = (false, new_CartManager).
Proof.
  apply addItem_rejects_falsy. left. reflexivity.
Defined.

(** ** The invariant of the order store *)

Section Invariant.

Implicit Types st : CartManager.

Lemma is_Some_insert (m : gmap string (list loc)) (k j : string)
  (v : list loc) :
  is_Some (m !! j) → is_Some (<[k := v]> m !! j).
Proof.
  intros H. destruct (decide (k = j)) as [->|Hne].
  - rewrite lookup_insert_eq. by eexists.
  - by rewrite lookup_insert_ne.
Qed.

Lemma grows_refl st : grows st st.
Proof. by split. Qed.

Lemma grows_inv st st' : grows st st' → store_inv st → store_inv st'.
Proof.
  intros [Ha Ho] [Hd Hact]. split; [by apply Ho|].
  rewrite Ha. by apply Ho.
Qed.

Lemma grows_showNotification st st' message type :
  grows st st' → grows st (showNotification message type st').
Proof. done. Qed.

Lemma grows_set_heap st h : grows st (set_heap h st).
Proof. by split. Qed.

Lemma grows_insert st k v :
  grows st (set_orders (<[k := v]> (orders st)) st).
Proof. split; [done|]. intros j. simpl. apply is_Some_insert. Qed.

Lemma grows_cart_mutate st f : grows st (cart_mutate f st).
Proof.
  unfold cart_mutate. destruct (orders st !! activeOrderId st).
  - apply grows_insert.
  - apply grows_refl.
Qed.

Lemma grows_trans st1 st2 st3 : grows st1 st2 → grows st2 st3 → grows st1 st3.
Proof.
  intros [Ha Ho] [Ha' Ho']. split; [congruence|]. intros k Hk. auto.
Qed.

Lemma grows_addItem e item st : grows st (addItem e item st).2.
Proof.
  unfold addItem. destruct item as [d|]; [|apply grows_refl].
  destruct (_ || _); [apply grows_refl|]. simpl.
  apply grows_showNotification. destruct (find _ _).
  - apply grows_set_heap.
  - eapply grows_trans; [apply grows_set_heap | apply grows_cart_mutate].
Qed.

Lemma grows_removeItem index st : grows st (removeItem index st).
Proof.
  unfold removeItem. destruct (in_cart index st); [|apply grows_refl].
  apply grows_showNotification, grows_cart_mutate.
Qed.

Lemma grows_updateQuantity index quantity st :
  grows st (updateQuantity index quantity st).
Proof.
  unfold updateQuantity. destruct (in_cart index st); [|apply grows_refl].
  destruct (gtb _ _); [|apply grows_cart_mutate].
  destruct (cart st !! position index);
    [apply grows_set_heap | apply grows_refl].
Qed.

Lemma grows_clearCart st : grows st (clearCart st).
Proof. apply grows_showNotification, grows_insert. Qed.

Lemma grows_duplicateCurrentOrder e st :
  grows st (duplicateCurrentOrder e st).2.
Proof. apply grows_showNotification, grows_insert. Qed.

Lemma grows_loadTemplate templateId targetOrderId st :
  grows st (loadTemplate templateId targetOrderId st).2.
Proof.
  unfold loadTemplate. destruct (find _ _); simpl.
  - apply grows_showNotification, grows_insert.
  - apply grows_showNotification, grows_refl.
Qed.

Lemma grows_saveAsTemplate e templateName st :
  grows st (saveAsTemplate e templateName st).2.
Proof.
  unfold saveAsTemplate.
  destruct (_ || _); [apply grows_showNotification, grows_refl|].
  destruct (find _ _); by apply grows_showNotification.
Qed.

Lemma grows_deleteTemplate templateId st :
  grows st (deleteTemplate templateId st).2.
Proof.
  unfold deleteTemplate. by destruct (findIndex _ _).
Qed.

Lemma grows_updateTemplate e templateId newName newItems st :
  grows st (updateTemplate e templateId newName newItems st).2.
Proof.
  unfold updateTemplate. by destruct (findIndex _ _).
Qed.

Lemma grows_duplicateTemplate e templateId newName st :
  grows st (duplicateTemplate e templateId newName st).2.
Proof.
  unfold duplicateTemplate. by destruct (getTemplate _ _).
Qed.

Lemma store_inv_switchToOrder orderId st :
  store_inv st → store_inv (switchToOrder orderId st).
Proof.
  intros [Hd Ha]. unfold switchToOrder.
  destruct (has_order st orderId) eqn:Ho; [|done].
  apply has_order_true in Ho. by split.
Qed.

Lemma store_inv_createOrder e name st :
  store_inv st → store_inv (createOrder e name st).2.
Proof.
  intros Hinv. unfold createOrder.
  destruct (negb _); [|done]. simpl.
  set (orderId := or_string name _).
  set (st1 := set_orders _ st).
  assert (H1 : store_inv st1).
  { eapply grows_inv; [apply grows_insert | done]. }
  exact (store_inv_switchToOrder orderId st1 H1).
Qed.

Lemma store_inv_deleteOrder orderId st :
  store_inv st → store_inv (deleteOrder orderId st).2.
Proof.
  intros [Hd Ha]. unfold deleteOrder.
  case_bool_decide as Hdef; [done|].
  destruct (has_order st orderId); [|done]. simpl.
  assert (Hd' : is_Some (delete orderId (orders st) !! "default")).
  { by rewrite lookup_delete_ne. }
  case_bool_decide as Hact.
  - unfold switchToOrder, has_order. simpl.
    by rewrite bool_decide_eq_true_2.
  - split; [done|]. simpl. by rewrite lookup_delete_ne.
Qed.

Lemma store_inv_renameOrder oldOrderId newOrderId st :
  oldOrderId ≠ "default" →
  store_inv st → store_inv (renameOrder oldOrderId newOrderId st).2.
Proof.
  intros Hold [Hd Ha]. unfold renameOrder.
  destruct (orders st !! oldOrderId) as [items|] eqn:Hitems; [|done].
  destruct (has_order st newOrderId) eqn:Hnew; [done|]. simpl.
  apply has_order_false in Hnew.
  assert (Hd' : is_Some (delete oldOrderId
                           (<[newOrderId := items]> (orders st))
                         !! "default")).
  { rewrite lookup_delete_ne by done. by apply is_Some_insert. }
  case_bool_decide as Hact; (split; [done|]); simpl.
  - destruct (decide (oldOrderId = newOrderId)) as [->|Hne].
    + congruence.
    + rewrite lookup_delete_ne by done. rewrite lookup_insert_eq. by eexists.
  - rewrite lookup_delete_ne by done. by apply is_Some_insert.
Qed.

End Invariant.

(** Every call other than a renaming of [default] keeps the invariant. *)
Lemma store_inv_step (e : env) (o : operation) (st : CartManager) :
  renames_default o = false → store_inv st → store_inv (step e o st).
Proof.
  intros Ho Hinv. destruct o; simpl.
  - eapply grows_inv; [apply grows_addItem | done].
  - eapply grows_inv; [apply grows_removeItem | done].
  - eapply grows_inv; [apply grows_updateQuantity | done].
  - eapply grows_inv; [apply grows_clearCart | done].
  - by apply store_inv_createOrder.
  - by apply store_inv_switchToOrder.
  - eapply grows_inv; [apply grows_duplicateCurrentOrder | done].
  - by apply store_inv_deleteOrder.
  - apply store_inv_renameOrder; [|done].
    simpl in Ho. by apply bool_decide_eq_false in Ho.
  - eapply grows_inv; [apply grows_saveAsTemplate | done].
  - eapply grows_inv; [apply grows_loadTemplate | done].
  - eapply grows_inv; [apply grows_deleteTemplate | done].
  - eapply grows_inv; [apply grows_updateTemplate | done].
  - eapply grows_inv; [apply grows_duplicateTemplate | done].
Qed.

Lemma store_inv_new : store_inv new_CartManager.
Proof. split; exists []; reflexivity. Qed.

Lemma store_inv_run (calls : list (env * operation)) (st : CartManager) :
  Forall (λ c, renames_default c.2 = false) calls →
  store_inv st → store_inv (run calls st).
Proof.
  unfold run. revert st.
  induction calls as [|[e o] calls IH]; intros st Hc Hinv; [done|].
  inversion Hc; subst. simpl. apply IH; [done|]. by apply store_inv_step.
Qed.

(** C1. The state the constructor builds satisfies the invariant, and one
    call [renameOrder("default", "lunch")] succeeds and leads to a state
    without the order [default]. *)
Theorem renameOrder_default_removes_default :
  store_inv new_CartManager
  ∧ (renameOrder "default" "lunch" new_CartManager).1 = true
  ∧ orders (renameOrder "default" "lunch" new_CartManager).2 !! "default"
    = None
  ∧ getAllOrderIds (renameOrder "default" "lunch" new_CartManager).2
    = ["lunch"]
  ∧ reachable (renameOrder "default" "lunch" new_CartManager).2
  ∧ ¬ store_inv (renameOrder "default" "lunch" new_CartManager).2.
Proof.
  split; [apply store_inv_new|].
  split; [reflexivity|]. split; [reflexivity|]. split; [reflexivity|].
  split.
  - apply (reachable_step env0 (RenameOrder "default" "lunch"));
      [apply reachable_new | exact I].
  - intros [[x Hx] _]. discriminate Hx.
Qed.

(** ** Deleting the active order *)

Lemma getAllOrderIds_spec (st : CartManager) (orderId : string) :
  orderId ∈ getAllOrderIds st ↔ is_Some (orders st !! orderId).
Proof.
  unfold getAllOrderIds. rewrite list_elem_of_fmap. split.
  - intros [[k v] [-> Hkv]]. apply elem_of_map_to_list in Hkv. by eexists.
  - intros [v Hv]. exists (orderId, v). split; [done|].
    by apply elem_of_map_to_list.
Qed.

(** While [default] exists, deleting the active order makes [default] the
    active order and removes the id from [getAllOrderIds()]. *)
Lemma deleteOrder_active_with_default (orderId : string) (st : CartManager) :
  is_Some (orders st !! "default") →
  is_Some (orders st !! orderId) →
  orderId ≠ "default" →
  activeOrderId st = orderId →
  (deleteOrder orderId st).1 = true
  ∧ activeOrderId (deleteOrder orderId st).2 = "default"
  ∧ orderId ∉ getAllOrderIds (deleteOrder orderId st).2.
Proof.
  intros Hd Ho Hne Hact. unfold deleteOrder.
  rewrite bool_decide_eq_false_2 by done.
  apply has_order_true in Ho. rewrite Ho. simpl.
  rewrite bool_decide_eq_true_2 by done.
  unfold switchToOrder, has_order. simpl.
  rewrite bool_decide_eq_true_2 by (by rewrite lookup_delete_ne).
  simpl. split; [done|]. split; [done|].
  rewrite getAllOrderIds_spec. simpl. rewrite lookup_delete_eq.
  by intros [? ?].
Qed.

(** C8. In the state reached by [renameOrder("default", "lunch")] the order
    [lunch] exists, is not [default] and is active; [deleteOrder("lunch")]
    returns [true] and leaves [lunch] as the active order id, although no
    such order exists any more. *)
Theorem deleteOrder_active_without_default :
  reachable renamed_default
  ∧ is_Some (orders renamed_default !! "lunch")
  ∧ activeOrderId renamed_default = "lunch"
  ∧ (deleteOrder "lunch" renamed_default).1 = true
  ∧ activeOrderId (deleteOrder "lunch" renamed_default).2 = "lunch"
  ∧ getAllOrderIds (deleteOrder "lunch" renamed_default).2 = [].
Proof.
  split.
  - apply (reachable_step env0 (RenameOrder "default" "lunch"));
      [apply reachable_new | exact I].
  - split; [by exists []|]. by vm_compute.
Qed.

(** ** Templates share their items with the order *)

(** C5. With two pizzas saved as template [T], the template holds one row
    of quantity 2, total 500 and count 2.  After [updateQuantity(0, 5)] on
    the cart, or after one more pizza is added, the row of the template has
    the quantity of the cart, while its total and count are the old ones. *)
Theorem template_follows_cart_quantity :
  template_view saved_T <$> template_T saved_T
  = Some ([("Pizza", Num 250, Num 2)], Num 500, Num 2)
  ∧ template_view (updateQuantity (Num 0) (Number (Num 5)) saved_T)
    <$> template_T (updateQuantity (Num 0) (Number (Num 5)) saved_T)
    = Some ([("Pizza", Num 250, Num 5)], Num 500, Num 2)
  ∧ template_view
      (addItem env0 (Some (pizza (Number (Num 1)))) saved_T).2
    <$> template_T (addItem env0 (Some (pizza (Number (Num 1)))) saved_T).2
    = Some ([("Pizza", Num 250, Num 3)], Num 500, Num 2).
Proof. by vm_compute. Qed.

(** [updateTemplate] changes neither the orders nor the item objects. *)
Lemma updateTemplate_keeps_orders (e : env) (templateId : string)
  (newName : option string) (newItems : option (list loc))
  (st : CartManager) :
  orders (updateTemplate e templateId newName newItems st).2 = orders st
  ∧ heap (updateTemplate e templateId newName newItems st).2 = heap st
  ∧ activeOrderId (updateTemplate e templateId newName newItems st).2
    = activeOrderId st.
Proof. unfold updateTemplate. by destruct (findIndex _ _). Qed.

(** ** The quantity [addItem] stores *)

(** [parseInt(quantity) || 1]: 1 when the parsed quantity is [NaN] or 0, and
    the parsed quantity itself otherwise, negative or not. *)
Lemma coerced_quantity_cases (d : descriptor) :
  coerced_quantity d
  = match parseInt (d_quantity d) with
    | NaN => Num 1
    | Num z => if bool_decide (z = 0%Z) then Num 1 else Num z
    end.
Proof.
  unfold coerced_quantity, or_number, truthy.
  destruct (parseInt (d_quantity d)) as [|z]; [done|].
  by case_bool_decide.
Qed.

(** C6. [addItem] with the quantity [-3] on the empty cart succeeds and
    stores a row of quantity [-3]. *)
Theorem addItem_negative_quantity :
  (addItem env0 (Some (pizza (Number (Num (-3))))) new_CartManager).1 = true
  ∧ map item_quantity
      (cart_items
         (addItem env0 (Some (pizza (Number (Num (-3))))) new_CartManager).2)
    = [Num (-3)].
Proof. by vm_compute. Qed.

(** ** Saving, clearing and loading *)

Section RoundTrip.

Lemma find_none_Forall {A} (f : A → bool) (l : list A) :
  Forall (λ x, f x = false) l → find f l = None.
Proof.
  induction 1 as [|x l Hx _ IH]; simpl; [done|]. by rewrite Hx.
Qed.

Lemma find_app_last {A} (f : A → bool) (l : list A) (x : A) :
  Forall (λ y, f y = false) l → f x = true → find f (l ++ [x]) = Some x.
Proof.
  induction 1 as [|y l Hy _ IH]; simpl; intros Hx.
  - by rewrite Hx.
  - rewrite Hy. by apply IH.
Qed.

Lemma loadTemplate_found (templateId : string) (st : CartManager)
  (t : Template) :
  find (has_id templateId) (orderTemplates st) = Some t →
  (loadTemplate templateId None st).1 = true
  ∧ cart (loadTemplate templateId None st).2 = tpl_items t
  ∧ heap (loadTemplate templateId None st).2 = heap st
  ∧ orderTemplates (loadTemplate templateId None st).2 = orderTemplates st.
Proof.
  intros Hfind. unfold loadTemplate. rewrite Hfind. simpl.
  split; [done|]. split; [|done].
  unfold cart. simpl. by rewrite lookup_insert_eq.
Qed.

Lemma trim_nonempty (name : string) :
  trim name ≠ EmptyString → name ≠ EmptyString.
Proof. intros H ->. by apply H. Qed.

(** When the name is not blank and no template has it, and the id that
    is generated is not the id of an older template, [saveAsTemplate]
    returns an id; after [clearCart()], [loadTemplate] on that id succeeds
    and the array stored under the active order id holds the item objects
    the cart held when the template was saved, with the same data; the
    total and the count stored in the template are [getTotal()] and
    [getItemCount()] of the restored cart. *)
Lemma template_round_trip (e : env) (name : string) (st : CartManager) :
  trim name ≠ EmptyString →
  Forall (λ t, tpl_name t ≠ sanitizeInput (trim name)) (orderTemplates st) →
  Forall (λ t, tpl_id t ≠ generateOrderId e "template") (orderTemplates st) →
  ∃ templateId st1 t,
    saveAsTemplate e (Some name) st = (Some templateId, st1)
    ∧ (loadTemplate templateId None (clearCart st1)).1 = true
    ∧ activeOrderId (loadTemplate templateId None (clearCart st1)).2
      = activeOrderId st
    ∧ orders (loadTemplate templateId None (clearCart st1)).2
        !! activeOrderId st
      = Some (cart st)
    ∧ heap (loadTemplate templateId None (clearCart st1)).2 = heap st
    ∧ cart (loadTemplate templateId None (clearCart st1)).2 = cart st
    ∧ cart_items (loadTemplate templateId None (clearCart st1)).2
      = cart_items st
    ∧ getTemplate templateId (loadTemplate templateId None (clearCart st1)).2
      = Some t
    ∧ tpl_total t = getTotal (loadTemplate templateId None (clearCart st1)).2
    ∧ tpl_itemCount t
      = getItemCount (loadTemplate templateId None (clearCart st1)).2.
Proof.
  intros Hblank Hname Hid.
  pose proof (trim_nonempty _ Hblank) as Hne.
  set (template :=
         {| tpl_id := generateOrderId e "template";
            tpl_name := sanitizeInput (trim name);
            tpl_items := cart st;
            tpl_createdAt := now e;
            tpl_total := getTotal st;
            tpl_itemCount := getItemCount st;
            tpl_updatedAt := None |}).
  set (st1 :=
         showNotification ("Saved template: " +:+ sanitizeInput (trim name))
           Success
           (set_orderTemplates (orderTemplates st ++ [template]) st)).
  exists (generateOrderId e "template"), st1, template.
  assert (Hsave : saveAsTemplate e (Some name) st
                  = (Some (generateOrderId e "template"), st1)).
  { unfold saveAsTemplate. simpl.
    rewrite (bool_decide_eq_false_2 (name = EmptyString)) by done.
    rewrite (bool_decide_eq_false_2 (trim name = EmptyString)) by done.
    simpl. rewrite find_none_Forall; [done|].
    eapply Forall_impl; [exact Hname|]. intros t Ht.
    unfold has_name. by apply bool_decide_eq_false_2. }
  assert (Hfind : find (has_id (generateOrderId e "template"))
                    (orderTemplates st ++ [template]) = Some template).
  { apply find_app_last.
    - eapply Forall_impl; [exact Hid|]. intros t Ht.
      unfold has_id. by apply bool_decide_eq_false_2.
    - unfold has_id. by apply bool_decide_eq_true_2. }
  split; [exact Hsave|].
  destruct (loadTemplate_found (generateOrderId e "template") (clearCart st1)
              template Hfind) as (Hr & Hcart & Hheap & Htpl).
  change (tpl_items template) with (cart st) in Hcart.
  change (heap (clearCart st1)) with (heap st) in Hheap.
  split; [exact Hr|].
  assert (Hload : loadTemplate (generateOrderId e "template") None
                    (clearCart st1)
                  = (true,
                     showNotification
                       ("Loaded template: " +:+ tpl_name template) Success
                       (set_orders
                          (<[activeOrderId st := cart st]>
                             (orders (clearCart st1))) (clearCart st1)))).
  { unfold loadTemplate.
    change (orderTemplates (clearCart st1))
      with (orderTemplates st ++ [template]).
    by rewrite Hfind. }
  split; [by rewrite Hload|].
  split; [rewrite Hload; simpl; by rewrite lookup_insert_eq|].
  split; [exact Hheap|]. split; [exact Hcart|].
  split; [unfold cart_items; by rewrite Hcart, Hheap|].
  split; [unfold getTemplate; by rewrite Htpl|].
  unfold getTotal, getItemCount. by rewrite Hcart, Hheap.
Qed.

Lemma template_round_trip_witness :
  ∃ templateId st1 t,
    saveAsTemplate env1 (Some "  Lunch ") saved_T = (Some templateId, st1)
    ∧ (loadTemplate templateId None (clearCart st1)).1 = true
    ∧ activeOrderId (loadTemplate templateId None (clearCart st1)).2
      = activeOrderId saved_T
    ∧ orders (loadTemplate templateId None (clearCart st1)).2
        !! activeOrderId saved_T
      = Some (cart saved_T)
    ∧ heap (loadTemplate templateId None (clearCart st1)).2 = heap saved_T
    ∧ cart (loadTemplate templateId None (clearCart st1)).2 = cart saved_T
    ∧ cart_items (loadTemplate templateId None (clearCart st1)).2
      = cart_items saved_T
    ∧ getTemplate templateId (loadTemplate templateId None (clearCart st1)).2
      = Some t
    ∧ tpl_total t = getTotal (loadTemplate templateId None (clearCart st1)).2
    ∧ tpl_itemCount t
      = getItemCount (loadTemplate templateId None (clearCart st1)).2.
Proof.
  apply template_round_trip.
  - by vm_compute.
  - apply Forall_cons. split; [by vm_compute | apply Forall_nil_2].
  - apply Forall_cons. split; [by vm_compute | apply Forall_nil_2].
Defined.

End RoundTrip.

(** C4. The cart holds two pizzas, saved as the template [A], and a burger.
    [saveAsTemplate("T")] is called while the clock and the random suffix
    are those [A] was saved with: it returns the id of [A].  After
    [clearCart()], [loadTemplate] on the id returned succeeds and finds
    [A], the first template with the id: the active order holds the pizzas
    without the burger, and the total 620 and the count 3 stored in [T] are
    not the total 500 and the count 2 of the restored cart. *)
Theorem template_round_trip_id_collision :
  reachable pizza_and_burger
  ∧ map (λ it, (item_name it, item_price it, item_quantity it))
      (cart_items pizza_and_burger)
    = [("Pizza", Num 250, Num 2); ("Burger", Num 120, Num 1)]
  ∧ map (λ t, (tpl_id t, tpl_name t)) (orderTemplates pizza_and_burger)
    = [("template-1700000000000-k3x9a", "A")]
  ∧ colliding_round_trip.1 = Some "template-1700000000000-k3x9a"
  ∧ colliding_round_trip.2.1 = true
  ∧ map (λ it, (item_name it, item_price it, item_quantity it))
      (cart_items colliding_round_trip.2.2)
    = [("Pizza", Num 250, Num 2)]
  ∧ map (λ t, (tpl_id t, tpl_name t, tpl_total t, tpl_itemCount t))
      (orderTemplates colliding_round_trip.2.2)
    = [("template-1700000000000-k3x9a", "A", Num 500, Num 2);
       ("template-1700000000000-k3x9a", "T", Num 620, Num 3)]
  ∧ getTotal colliding_round_trip.2.2 = Num 500
  ∧ getItemCount colliding_round_trip.2.2 = Num 2.
Proof.
  split; [|by vm_compute].
  apply (reachable_step env0 (AddItem _)); [|exact I].
  apply (reachable_step env0 (SaveAsTemplate _)); [|exact I].
  apply (reachable_step env0 (AddItem _)); [apply reachable_new | exact I].
Qed.

(** ** Adding the same item several times *)

Section Merge.

Variables (name : string) (price : number).

Lemma addItem_result (e : env) (d : descriptor) (st : CartManager) :
  (addItem e (Some d) st).1 = accepted d.
Proof.
  unfold addItem, accepted.
  by destruct (truthy_string (d_name d)), (truthy_number (d_price d)).
Qed.

Lemma stands_for_price (d : descriptor) :
  stands_for name price d → price ≠ NaN.
Proof.
  intros (Hacc & _ & Hp) HNaN. unfold accepted in Hacc.
  apply andb_true_iff in Hacc as [_ Hacc].
  unfold parseFloat in Hp.
  destruct (d_price d) as [[|z]|]; simpl in *; congruence.
Qed.

Lemma find_app {A} (f : A → bool) (l k : list A) :
  find f (l ++ k) = match find f l with Some x => Some x | None => find f k end.
Proof. induction l as [|x l IH]; simpl; [done|]. by destruct (f x). Qed.

Lemma same_item_rows (h : list Item) (ls : list loc) :
  rows_with name price (items_of h ls) = [] →
  Forall (λ l, same_item h name price l = false) ls.
Proof.
  induction ls as [|l ls IH]; intros Hrows; [constructor|].
  unfold items_of in Hrows. simpl in Hrows.
  destruct (h !! l) as [it|] eqn:Hl; simpl in Hrows.
  - unfold rows_with in Hrows. rewrite filter_cons in Hrows.
    destruct (decide _) as [Hp|Hp]; [done|].
    constructor; [|by apply IH].
    unfold same_item. rewrite Hl.
    destruct (bool_decide (item_name it = name)) eqn:Hn; [|done].
    destruct (strict_eq (item_price it) price) eqn:Hs; [|done].
    apply bool_decide_eq_true in Hn. apply strict_eq_true in Hs as [Hs _].
    by destruct Hp.
  - constructor; [|by apply IH]. unfold same_item. by rewrite Hl.
Qed.

Lemma same_item_app (h : list Item) (it : Item) (l : loc) :
  l < length h → same_item (h ++ [it]) name price l = same_item h name price l.
Proof. intros Hl. unfold same_item. by rewrite lookup_app_l. Qed.

Lemma items_of_app (h : list Item) (it : Item) (ls : list loc) :
  Forall (λ l, l < length h) ls → items_of (h ++ [it]) ls = items_of h ls.
Proof.
  induction 1 as [|l ls Hl _ IH]; [done|].
  unfold items_of in *. simpl. rewrite lookup_app_l by done.
  destruct (h !! l); [f_equal|]; exact IH.
Qed.

Lemma items_of_snoc (h : list Item) (it : Item) (ls : list loc) :
  Forall (λ l, l < length h) ls →
  items_of (h ++ [it]) (ls ++ [length h]) = items_of h ls ++ [it].
Proof.
  intros Hls. unfold items_of. rewrite omap_app. f_equal.
  - by apply items_of_app.
  - simpl. by rewrite list_lookup_middle.
Qed.

(** The rows of a merged state: one row for the item, of quantity [q]. *)
Lemma merged_rows (st0 st : CartManager) (q : number) :
  cart_allocated st0 →
  rows_with name price (cart_items st0) = [] →
  merged st0 st name price q →
  ∃ row, rows_with name price (cart_items st) = [row]
         ∧ item_quantity row = q.
Proof.
  intros Halloc Hrows (Hact & Hord & id & Hheap).
  exists {| item_name := name; item_price := price;
            item_quantity := q; item_id := id |}.
  split; [|done].
  unfold cart_items, cart at 1. rewrite Hact, Hord, Hheap. simpl.
  rewrite items_of_snoc by done.
  unfold rows_with in *. rewrite filter_app.
  unfold cart_items in Hrows. rewrite Hrows. simpl.
  by rewrite filter_cons_True.
Qed.

(** The first call appends the row. *)
Lemma addItem_first (e : env) (d : descriptor) (st0 : CartManager) :
  stands_for name price d →
  is_Some (orders st0 !! activeOrderId st0) →
  rows_with name price (cart_items st0) = [] →
  merged st0 (addItem e (Some d) st0).2 name price (coerced_quantity d).
Proof.
  intros (Hacc & Hname & Hprice) [c0 Hc0] Hrows.
  unfold accepted in Hacc. apply andb_true_iff in Hacc as [Hn Hp].
  unfold addItem. rewrite Hn, Hp. simpl. rewrite Hname, Hprice.
  rewrite find_none_Forall by (by apply same_item_rows).
  unfold merged, cart_mutate, cart. simpl. rewrite Hc0. simpl.
  split; [done|]. split; [by rewrite lookup_insert_eq|]. by eexists.
Qed.

(** Each further call adds its quantity to the row. *)
Lemma addItem_next (e : env) (d : descriptor) (st0 st : CartManager)
  (q : number) :
  stands_for name price d →
  cart_allocated st0 →
  rows_with name price (cart_items st0) = [] →
  merged st0 st name price q →
  merged st0 (addItem e (Some d) st).2 name price
    (add q (coerced_quantity d)).
Proof.
  intros Hd Halloc Hrows (Hact & Hord & id & Hheap).
  pose proof (stands_for_price d Hd) as HNaN.
  destruct Hd as (Hacc & Hname & Hprice).
  unfold accepted in Hacc. apply andb_true_iff in Hacc as [Hn Hp].
  unfold addItem. rewrite Hn, Hp. simpl. rewrite Hname, Hprice.
  assert (Hfind : find (same_item (heap st) name price) (cart st)
                  = Some (length (heap st0))).
  { unfold cart. rewrite Hact, Hord, Hheap. simpl. rewrite find_app.
    rewrite find_none_Forall.
    - simpl. unfold same_item. rewrite list_lookup_middle by done. simpl.
      rewrite bool_decide_eq_true_2 by done.
      by rewrite (proj2 (strict_eq_true price price)).
    - apply same_item_rows in Hrows.
      unfold cart_allocated, allocated in Halloc.
      rewrite Forall_forall in Hrows, Halloc.
      apply Forall_forall. intros l Hl.
      rewrite same_item_app; [by apply Hrows | by apply Halloc]. }
  rewrite Hfind. unfold merged. simpl.
  split; [done|]. split; [done|]. exists id.
  rewrite Hheap.
  replace (length (heap st0)) with (length (heap st0) + 0) at 1 by lia.
  by rewrite alter_app_r.
Qed.

Lemma addItems_merged (calls : list (env * descriptor))
  (st0 st : CartManager) (q : number) :
  Forall (λ c, stands_for name price c.2) calls →
  cart_allocated st0 →
  rows_with name price (cart_items st0) = [] →
  merged st0 st name price q →
  merged st0 (addItems calls st) name price
    (fold_left add (map (λ c, coerced_quantity c.2) calls) q).
Proof.
  intros Hcalls Halloc Hrows. revert st q.
  induction Hcalls as [|[e d] calls Hd _ IH]; intros st q Hm; [done|].
  change (addItems ((e, d) :: calls) st)
    with (addItems calls (addItem e (Some d) st).2).
  simpl. apply IH. by apply addItem_next.
Qed.

End Merge.

(** Take a cart that exists, whose rows are allocated and none of which
    has the name and the price.  After one or more accepted [addItem] calls
    for that sanitized name and that price, the cart has exactly one row
    with the name and the price, and its quantity is the sum of the
    quantities the calls were coerced to. *)
Lemma addItem_merges_same_item (calls : list (env * descriptor))
  (name : string) (price : number) (st : CartManager) :
  calls ≠ [] →
  Forall (λ c, stands_for name price c.2) calls →
  is_Some (orders st !! activeOrderId st) →
  cart_allocated st →
  rows_with name price (cart_items st) = [] →
  ∃ row,
    rows_with name price (cart_items (addItems calls st)) = [row]
    ∧ item_quantity row
      = sum_numbers (map (λ c, coerced_quantity c.2) calls).
Proof.
  intros Hne Hcalls Hact Halloc Hrows.
  destruct calls as [|[e d] calls]; [done|].
  inversion Hcalls as [|? ? Hd Hrest]; subst.
  unfold sum_numbers. cbn [map fold_left]. rewrite add_0_l.
  apply (merged_rows name price st); [done..|].
  change (addItems ((e, d) :: calls) st)
    with (addItems calls (addItem e (Some d) st).2).
  apply addItems_merged; [done..|]. by apply addItem_first.
Qed.

Lemma addItem_merges_same_item_witness :
  ∃ row,
    rows_with "Pizza" (Num 250)
      (cart_items (addItems three_pizza_calls with_burger)) = [row]
    ∧ item_quantity row
      = sum_numbers (map (λ c, coerced_quantity c.2) three_pizza_calls).
Proof.
  apply addItem_merges_same_item.
  - discriminate.
  - repeat constructor.
  - exists [0]. reflexivity.
  - apply Forall_cons. split; [vm_compute; lia | apply Forall_nil_2].
  - reflexivity.
Defined.

Example three_pizza_calls_row :
  map (λ it, (item_name it, item_quantity it))
    (cart_items (addItems three_pizza_calls with_burger))
  = [("Burger", Num 1); ("Pizza", Num 6)].
Proof. reflexivity. Qed.

(** C3. After [renameOrder("default", "lunch")] and [deleteOrder("lunch")]
    no order is left and [lunch] is still the active order id.  Two
    [addItem] calls for the pizza at 250, with quantities 2 and 3, then
    return [true] and show "Pizza added to cart!", but each row is pushed
    on the empty array the getter makes up: no order is stored, and the
    active order has no row with the name and the price, where one row of
    quantity 5 is expected. *)
Theorem addItem_lost_without_active_order :
  reachable without_active_order
  ∧ getAllOrderIds without_active_order = []
  ∧ activeOrderId without_active_order = "lunch"
  ∧ Forall (λ c, stands_for "Pizza" (Num 250) c.2) two_pizza_calls
  ∧ (addItem env0 (Some (pizza (Number (Num 2)))) without_active_order).1
    = true
  ∧ (addItem env1 (Some (pizza (Number (Num 3))))
       (addItem env0 (Some (pizza (Number (Num 2))))
          without_active_order).2).1
    = true
  ∧ notifications (addItems two_pizza_calls without_active_order)
    = notifications without_active_order
      ++ [("Pizza added to cart!", Success);
          ("Pizza added to cart!", Success)]
  ∧ activeOrderId (addItems two_pizza_calls without_active_order) = "lunch"
  ∧ getAllOrderIds (addItems two_pizza_calls without_active_order) = []
  ∧ cart_items (addItems two_pizza_calls without_active_order) = []
  ∧ rows_with "Pizza" (Num 250)
      (cart_items (addItems two_pizza_calls without_active_order))
    = [].
Proof.
  split.
  { apply (reachable_step env0 (DeleteOrder "lunch")); [|exact I].
    apply (reachable_step env0 (RenameOrder "default" "lunch"));
      [apply reachable_new | exact I]. }
  split; [reflexivity|]. split; [reflexivity|].
  split; [repeat constructor|].
  by vm_compute.
Qed.

(** ** Allocation *)

Section Allocation.

Implicit Types st : CartManager.

Lemma allocated_mono (h h' : list Item) (ls : list loc) :
  length h ≤ length h' → allocated h ls → allocated h' ls.
Proof.
  intros Hle Hls. eapply Forall_impl; [exact Hls|].
  intros l Hl. simpl in *. lia.
Qed.

Lemma allocated_delete (h : list Item) (ls : list loc) (i : nat) :
  allocated h ls → allocated h (delete i ls).
Proof. apply Forall_delete. Qed.

Lemma heap_wf_cart st : heap_wf st → cart_allocated st.
Proof.
  intros [Ho _]. unfold cart_allocated, cart.
  destruct (orders st !! activeOrderId st) as [ls|] eqn:Hls; simpl.
  - by apply (Ho _ _ Hls).
  - constructor.
Qed.

Lemma heap_wf_insert st k v :
  allocated (heap st) v → heap_wf st →
  heap_wf (set_orders (<[k := v]> (orders st)) st).
Proof.
  intros Hv [Ho Ht]. split; [|done]. intros j ls. simpl.
  destruct (decide (k = j)) as [->|Hne].
  - rewrite lookup_insert_eq. by intros [= <-].
  - rewrite lookup_insert_ne by done. apply Ho.
Qed.

Lemma heap_wf_delete st k :
  heap_wf st → heap_wf (set_orders (delete k (orders st)) st).
Proof.
  intros [Ho Ht]. split; [|done]. intros j ls. simpl.
  intros Hj. apply lookup_delete_Some in Hj as [_ Hj]. by apply (Ho j).
Qed.

Lemma heap_wf_set_heap st h :
  length (heap st) ≤ length h → heap_wf st → heap_wf (set_heap h st).
Proof.
  intros Hle [Ho Ht]. split.
  - intros k ls Hk. simpl in *. eapply allocated_mono; [done|]. by apply (Ho k).
  - simpl. eapply Forall_impl; [exact Ht|]. intros t.
    by apply allocated_mono.
Qed.

Lemma heap_wf_templates st ts :
  Forall (λ t, allocated (heap st) (tpl_items t)) ts →
  heap_wf st → heap_wf (set_orderTemplates ts st).
Proof. intros Hts [Ho _]. by split. Qed.

Lemma heap_wf_cart_mutate st f :
  (∀ ls, allocated (heap st) ls → allocated (heap st) (f ls)) →
  heap_wf st → heap_wf (cart_mutate f st).
Proof.
  intros Hf Hwf. unfold cart_mutate.
  destruct (orders st !! activeOrderId st) as [ls|] eqn:Hls; [|done].
  apply heap_wf_insert; [|done]. apply Hf. by apply (proj1 Hwf _ _ Hls).
Qed.

Lemma heap_wf_switchToOrder st orderId :
  heap_wf st → heap_wf (switchToOrder orderId st).
Proof. unfold switchToOrder. by destruct (has_order st orderId). Qed.

Lemma heap_wf_addItem e item st : heap_wf st → heap_wf (addItem e item st).2.
Proof.
  intros Hwf. unfold addItem. destruct item as [d|]; [|done].
  destruct (_ || _); [done|]. simpl.
  destruct (find _ _).
  - apply (heap_wf_set_heap st); [|done]. by rewrite length_alter.
  - apply (heap_wf_cart_mutate (set_heap _ st)).
    + intros ls Hls. simpl in *. apply Forall_app. split; [done|].
      apply Forall_singleton. rewrite length_app. simpl. lia.
    + apply heap_wf_set_heap; [|done]. rewrite length_app. lia.
Qed.

Lemma heap_wf_step (e : env) (o : operation) st :
  allocated_arguments o st → heap_wf st → heap_wf (step e o st).
Proof.
  intros Harg Hwf. destruct o; simpl.
  - by apply heap_wf_addItem.
  - unfold removeItem. destruct (in_cart index st); [|done].
    apply (heap_wf_cart_mutate st); [|done].
    intros ls. apply allocated_delete.
  - unfold updateQuantity. destruct (in_cart index st); [|done].
    destruct (gtb _ _).
    + destruct (cart st !! position index); [|done].
      apply heap_wf_set_heap; [|done]. by rewrite length_alter.
    + apply (heap_wf_cart_mutate st); [|done].
      intros ls. apply allocated_delete.
  - apply (heap_wf_insert st); [constructor | done].
  - unfold createOrder. destruct (negb _); [|done]. simpl.
    apply (heap_wf_switchToOrder (set_orders _ st)).
    apply heap_wf_insert; [constructor | done].
  - by apply heap_wf_switchToOrder.
  - apply (heap_wf_insert st); [|done]. by apply heap_wf_cart.
  - unfold deleteOrder. case_bool_decide; [done|].
    destruct (has_order st orderId); [|done]. simpl.
    case_bool_decide.
    + apply (heap_wf_switchToOrder (set_orders _ st)).
      by apply heap_wf_delete.
    + by apply heap_wf_delete.
  - unfold renameOrder.
    destruct (orders st !! oldOrderId) as [items|] eqn:Hitems; [|done].
    destruct (has_order st newOrderId); [done|]. simpl.
    assert (H1 : heap_wf
                   (set_orders
                      (delete oldOrderId
                         (<[newOrderId := items]> (orders st))) st)).
    { apply (heap_wf_delete (set_orders _ st)).
      apply heap_wf_insert; [|done]. by apply (proj1 Hwf _ _ Hitems). }
    by case_bool_decide.
  - unfold saveAsTemplate. destruct (_ || _); [done|].
    destruct (find _ _); [done|]. simpl.
    apply (heap_wf_templates st); [|done].
    apply Forall_app. split; [apply Hwf|].
    apply Forall_singleton. simpl. by apply heap_wf_cart.
  - unfold loadTemplate.
    destruct (find _ _) as [t|] eqn:Hfind; [|done]. simpl.
    apply (heap_wf_insert st); [|done].
    apply find_some in Hfind as [Hin _].
    apply list_elem_of_In in Hin.
    by apply (proj1 (Forall_forall _ _) (proj2 Hwf)).
  - unfold deleteTemplate. destruct (findIndex _ _) as [i|]; [|done]. simpl.
    apply (heap_wf_templates st); [|done]. apply Forall_delete, Hwf.
  - unfold updateTemplate. destruct (findIndex _ _) as [i|]; [|done]. simpl.
    apply (heap_wf_templates st); [|done].
    destruct Hwf as [_ Ht].
    apply Forall_alter; [done|]. intros t _ Hall. simpl.
    by destruct newItems as [ls|].
  - unfold duplicateTemplate, getTemplate.
    destruct (find _ _) as [t|] eqn:Hfind; [|done]. simpl.
    apply (heap_wf_templates st); [|done].
    apply Forall_app. split; [apply Hwf|].
    apply Forall_singleton. simpl.
    apply find_some in Hfind as [Hin _].
    apply list_elem_of_In in Hin.
    by apply (proj1 (Forall_forall _ _) (proj2 Hwf)).
Qed.

Lemma heap_wf_new : heap_wf new_CartManager.
Proof.
  split; [|constructor]. intros k ls Hk.
  change (orders new_CartManager) with (<["default" := []]> (∅ : gmap string (list loc))) in Hk.
  apply lookup_insert_Some in Hk as [[_ <-]|[_ Hk]]; [constructor|].
  by rewrite lookup_empty in Hk.
Qed.

Lemma reachable_heap_wf st : reachable st → heap_wf st.
Proof.
  induction 1 as [|e o st _ IH Harg]; [apply heap_wf_new|].
  by apply heap_wf_step.
Qed.

Lemma reachable_cart_allocated st : reachable st → cart_allocated st.
Proof. intros H. by apply heap_wf_cart, reachable_heap_wf. Qed.

End Allocation.

(** ** The scenarios of the specification *)

Example scenario_pizza :
  let st1 := (addItem env0 (Some (pizza (Number (Num 2)))) new_CartManager).2 in
  let st2 := (addItem env1 (Some (pizza (Number (Num 1)))) st1).2 in
  let st3 := updateQuantity (Num 0) (Number (Num 0)) st2 in
  (getTotal st1, getItemCount st1) = (Num 500, Num 2)
  ∧ map item_quantity (cart_items st2) = [Num 3]
  ∧ getTotal st2 = Num 750
  ∧ cart st3 = [] ∧ getTotal st3 = Num 0.
Proof. by vm_compute. Qed.

Example scenario_lunch :
  activeOrderId two_orders = "lunch"
  ∧ activeOrderId (switchToOrder "nonexistent" two_orders) = "lunch"
  ∧ orders (switchToOrder "nonexistent" two_orders) = orders two_orders
  ∧ last (notifications (switchToOrder "nonexistent" two_orders))
    = Some ("Order not found: nonexistent", Error).
Proof. by vm_compute. Qed.

Example scenario_blank_template :
  (saveAsTemplate env0 (Some EmptyString) new_CartManager).1 = None
  ∧ (saveAsTemplate env0 (Some "   ") new_CartManager).1 = None
  ∧ orderTemplates (saveAsTemplate env0 (Some "   ") new_CartManager).2 = [].
Proof. by vm_compute. Qed.

(** ** The invariant along a session *)

(** X1. Along every sequence of calls that never renames [default] and
    whose order ids name no inherited property, the order [default] exists
    and the active order id is the id of an existing order, from any state
    where this holds; the getter [cart] then gives the array stored under
    the active order id. *)
Theorem store_invariant_kept (calls : list (env * operation))
  (st : CartManager) :
  Forall (λ c, renames_default c.2 = false) calls →
  Forall (λ c, plain_ids c.2 = true) calls →
  store_inv st →
  store_inv (run calls st)
  ∧ Lookup.cart (run calls st) = Lookup.Items (cart (run calls st))
  ∧ orders (run calls st) !! activeOrderId (run calls st)
    = Some (cart (run calls st)).
Proof.
  intros Hcalls Hplain Hinv.
  assert (H : store_inv (run calls st)).
  { clear Hplain. unfold run. revert st Hinv.
    induction calls as [|[e o] calls IH]; intros st Hinv; [done|].
    apply Forall_cons in Hcalls as [Ho Hcalls]. simpl.
    apply IH; [done|]. by apply store_inv_step. }
  split; [exact H|]. destruct H as [_ [items Hitems]].
  split.
  - apply cart_plain. left. by exists items.
  - unfold cart. by rewrite Hitems.
Qed.

Lemma store_invariant_kept_witness :
  store_inv (run lunch_session new_CartManager)
  ∧ Lookup.cart (run lunch_session new_CartManager)
    = Lookup.Items (cart (run lunch_session new_CartManager))
  ∧ orders (run lunch_session new_CartManager)
      !! activeOrderId (run lunch_session new_CartManager)
    = Some (cart (run lunch_session new_CartManager)).
Proof.
  apply store_invariant_kept.
  - repeat constructor.
  - repeat constructor.
  - split; exists []; reflexivity.
Defined.

(** ** Rows stay distinct *)

Section Distinct.

Implicit Types st : CartManager.

Lemma omap_ext_Forall {A B} (f g : A → option B) (ls : list A) :
  Forall (λ x, f x = g x) ls → omap f ls = omap g ls.
Proof.
  induction 1 as [|x ls Hx _ IH]; [done|].
  simpl. rewrite Hx. destruct (g x); [f_equal|]; exact IH.
Qed.

Lemma omap_sublist {A B} (f : A → option B) (l1 l2 : list A) :
  l1 `sublist_of` l2 → omap f l1 `sublist_of` omap f l2.
Proof.
  induction 1 as [|x l1 l2 _ IH|x l1 l2 _ IH]; simpl.
  - constructor.
  - destruct (f x); [by constructor | exact IH].
  - destruct (f x); [by constructor | exact IH].
Qed.

Lemma filter_sublist_mono {A} (P : A → Prop) `{!∀ x, Decision (P x)}
  (l1 l2 : list A) :
  l1 `sublist_of` l2 → filter P l1 `sublist_of` filter P l2.
Proof.
  induction 1 as [|x l1 l2 _ IH|x l1 l2 _ IH].
  - constructor.
  - rewrite !filter_cons. destruct (decide (P x)); [by constructor | done].
  - rewrite filter_cons. destruct (decide (P x)); [by constructor | done].
Qed.

Lemma keys_sublist (h : list Item) (l1 l2 : list loc) :
  l1 `sublist_of` l2 → NoDup (keys h l2) → NoDup (keys h l1).
Proof.
  intros Hsub Hnd. eapply sublist_NoDup; [exact Hnd|].
  unfold keys, items_of.
  by apply filter_sublist_mono, fmap_sublist, omap_sublist.
Qed.

(** A change of quantity does not change the keys. *)
Lemma keys_alter (h : list Item) (f : Item → Item) (l : loc)
  (ls : list loc) :
  (∀ it, item_key (f it) = item_key it) →
  keys (alter f l h) ls = keys h ls.
Proof.
  intros Hf. unfold keys, items_of. f_equal. rewrite !list_fmap_omap.
  apply omap_ext_Forall, Forall_forall. intros l' _.
  rewrite list_lookup_alter. destruct (decide (l = l')) as [->|]; [|done].
  destruct (h !! l'); simpl; [by rewrite Hf | done].
Qed.

Lemma keys_app (h : list Item) (it : Item) (ls : list loc) :
  allocated h ls → keys (h ++ [it]) ls = keys h ls.
Proof. intros Hls. unfold keys. by rewrite items_of_app. Qed.

Lemma keys_snoc (h : list Item) (it : Item) (ls : list loc) :
  allocated h ls →
  keys (h ++ [it]) (ls ++ [length h])
  = keys h ls ++ filter (λ k, k.2 ≠ NaN) [item_key it].
Proof.
  intros Hls. unfold keys. rewrite items_of_snoc by done.
  by rewrite fmap_app, filter_app.
Qed.

(** When [find] meets no row, no row has the key, whatever the price. *)
Lemma find_none_key (h : list Item) (name : string) (price : number)
  (ls : list loc) :
  find (same_item h name price) ls = None →
  (name, price) ∉ keys h ls.
Proof.
  intros Hfind Hin. unfold keys in Hin.
  apply list_elem_of_filter in Hin as [HNaN Hin]. simpl in HNaN.
  apply list_elem_of_fmap in Hin as (it & Hkey & Hit).
  apply list_elem_of_omap in Hit as (l & Hl & Hlook).
  apply list_elem_of_In in Hl.
  pose proof (find_none _ _ Hfind l Hl) as Hsame.
  unfold same_item in Hsame. rewrite Hlook in Hsame.
  injection Hkey as Hn Hp.
  rewrite bool_decide_eq_true_2 in Hsame by done.
  rewrite <- Hp in Hsame.
  rewrite (proj2 (strict_eq_true price price)) in Hsame; [done|].
  by split.
Qed.

Lemma rows_distinct_insert st k v :
  NoDup (keys (heap st) v) → rows_distinct st →
  rows_distinct (set_orders (<[k := v]> (orders st)) st).
Proof.
  intros Hv [Ho Ht]. split; [|done]. intros j ls. simpl.
  destruct (decide (k = j)) as [->|Hne].
  - rewrite lookup_insert_eq. by intros [= <-].
  - rewrite lookup_insert_ne by done. apply Ho.
Qed.

Lemma rows_distinct_delete st k :
  rows_distinct st → rows_distinct (set_orders (delete k (orders st)) st).
Proof.
  intros [Ho Ht]. split; [|done]. intros j ls. simpl.
  intros Hj. apply lookup_delete_Some in Hj as [_ Hj]. by apply (Ho j).
Qed.

Lemma rows_distinct_set_heap st h :
  heap_wf st →
  (∀ ls, allocated (heap st) ls → keys h ls = keys (heap st) ls) →
  rows_distinct st → rows_distinct (set_heap h st).
Proof.
  intros [Wo Wt] Hkeys [Ho Ht]. split.
  - intros k ls Hk. simpl in *. rewrite Hkeys by (by apply (Wo k)).
    by apply (Ho k).
  - simpl. apply Forall_forall. intros t Hin.
    rewrite Forall_forall in Wt, Ht.
    rewrite Hkeys by (by apply Wt). by apply Ht.
Qed.

Lemma rows_distinct_templates st ts :
  Forall (λ t, NoDup (keys (heap st) (tpl_items t))) ts →
  rows_distinct st → rows_distinct (set_orderTemplates ts st).
Proof. intros Hts [Ho _]. by split. Qed.

Lemma rows_distinct_cart st : rows_distinct st → NoDup (keys (heap st) (cart st)).
Proof.
  intros [Ho _]. unfold cart.
  destruct (orders st !! activeOrderId st) as [ls|] eqn:Hls; simpl.
  - by apply (Ho _ _ Hls).
  - constructor.
Qed.

Lemma rows_distinct_cart_delete st i :
  rows_distinct st → rows_distinct (cart_mutate (delete i) st).
Proof.
  intros Hd. unfold cart_mutate.
  destruct (orders st !! activeOrderId st) as [ls|] eqn:Hls; [|done].
  apply rows_distinct_insert; [|done].
  eapply keys_sublist; [apply sublist_delete|]. by apply (proj1 Hd _ _ Hls).
Qed.

Lemma rows_distinct_switchToOrder st orderId :
  rows_distinct st → rows_distinct (switchToOrder orderId st).
Proof. unfold switchToOrder. by destruct (has_order st orderId). Qed.

Lemma rows_distinct_addItem e item st :
  heap_wf st → rows_distinct st → rows_distinct (addItem e item st).2.
Proof.
  intros Hwf Hd. unfold addItem. destruct item as [d|]; [|done].
  destruct (_ || _) eqn:Hguard; [done|]. simpl.
  assert (Hacc : accepted d = true).
  { unfold accepted. apply orb_false_iff in Hguard as [H1 H2].
    apply negb_false_iff in H1, H2. by rewrite H1, H2. }
  destruct (find _ _) as [l|] eqn:Hfind.
  - apply (rows_distinct_set_heap st); [done| |done].
    intros ls _. by apply keys_alter.
  - unfold cart_mutate. simpl.
    match goal with |- context [heap st ++ [?it]] => set (new := it) end.
    destruct (orders st !! activeOrderId st) as [c|] eqn:Hc.
    + pose proof (proj1 Hwf _ _ Hc) as Hcw.
      assert (H1 : rows_distinct (set_heap (heap st ++ [new]) st)).
      { apply (rows_distinct_set_heap st); [done| |done].
        intros ls Hls. by apply keys_app. }
      apply (rows_distinct_insert (set_heap _ st)); [|exact H1]. simpl.
      rewrite keys_snoc by done. apply NoDup_app. split; [|split].
      * by apply (proj1 Hd _ _ Hc).
      * intros x Hx Hin. apply list_elem_of_filter in Hin as [_ Hin].
        apply list_elem_of_singleton in Hin. subst x.
        revert Hx. apply find_none_key.
        unfold cart in Hfind. by rewrite Hc in Hfind.
      * apply NoDup_filter, NoDup_singleton.
    + apply (rows_distinct_set_heap st); [done| |done].
      intros ls Hls. by apply keys_app.
Qed.

End Distinct.

(** X2. Let every order and every template refer to allocated objects
    only, and let the item objects passed to [updateTemplate], if any, be
    allocated and no two of them have the same name and prices that are
    [===].  When no order and no template holds two rows of the same name
    whose prices are [===], none does after the call. *)
Theorem rows_distinct_step (e : env) (o : operation) (st : CartManager) :
  heap_wf st → allocated_arguments o st → distinct_arguments o st →
  rows_distinct st → rows_distinct (step e o st).
Proof.
  intros Hwf Harg Hdarg Hd. destruct o; simpl.
  - by apply rows_distinct_addItem.
  - unfold removeItem. destruct (in_cart index st); [|done].
    by apply (rows_distinct_cart_delete st).
  - unfold updateQuantity. destruct (in_cart index st); [|done].
    destruct (gtb _ _).
    + destruct (cart st !! position index); [|done].
      apply rows_distinct_set_heap; [done| |done].
      intros ls _. by apply keys_alter.
    + by apply rows_distinct_cart_delete.
  - apply (rows_distinct_insert st); [constructor | done].
  - unfold createOrder. destruct (negb _); [|done]. simpl.
    apply (rows_distinct_switchToOrder (set_orders _ st)).
    apply rows_distinct_insert; [constructor | done].
  - by apply rows_distinct_switchToOrder.
  - apply (rows_distinct_insert st); [|done]. by apply rows_distinct_cart.
  - unfold deleteOrder. case_bool_decide; [done|].
    destruct (has_order st orderId); [|done]. simpl.
    case_bool_decide.
    + apply (rows_distinct_switchToOrder (set_orders _ st)).
      by apply rows_distinct_delete.
    + by apply rows_distinct_delete.
  - unfold renameOrder.
    destruct (orders st !! oldOrderId) as [items|] eqn:Hitems; [|done].
    destruct (has_order st newOrderId); [done|]. simpl.
    assert (H1 : rows_distinct
                   (set_orders
                      (delete oldOrderId
                         (<[newOrderId := items]> (orders st))) st)).
    { apply (rows_distinct_delete (set_orders _ st)).
      apply rows_distinct_insert; [|done]. by apply (proj1 Hd _ _ Hitems). }
    by case_bool_decide.
  - unfold saveAsTemplate. destruct (_ || _); [done|].
    destruct (find _ _); [done|]. simpl.
    apply (rows_distinct_templates st); [|done].
    apply Forall_app. split; [apply Hd|].
    apply Forall_singleton. simpl. by apply rows_distinct_cart.
  - unfold loadTemplate.
    destruct (find _ _) as [t|] eqn:Hfind; [|done]. simpl.
    apply (rows_distinct_insert st); [|done].
    apply find_some in Hfind as [Hin _].
    apply list_elem_of_In in Hin.
    by apply (proj1 (Forall_forall _ _) (proj2 Hd)).
  - unfold deleteTemplate. destruct (findIndex _ _) as [i|]; [|done]. simpl.
    apply (rows_distinct_templates st); [|done]. apply Forall_delete, Hd.
  - unfold updateTemplate. destruct (findIndex _ _) as [i|]; [|done]. simpl.
    apply (rows_distinct_templates st); [|done].
    destruct Hd as [_ Ht].
    apply Forall_alter; [done|]. intros t _ Hall. simpl.
    by destruct newItems as [ls|].
  - unfold duplicateTemplate, getTemplate.
    destruct (find _ _) as [t|] eqn:Hfind; [|done]. simpl.
    apply (rows_distinct_templates st); [|done].
    apply Forall_app. split; [apply Hd|].
    apply Forall_singleton. simpl.
    apply find_some in Hfind as [Hin _].
    apply list_elem_of_In in Hin.
    by apply (proj1 (Forall_forall _ _) (proj2 Hd)).
Qed.

Lemma rows_distinct_new : rows_distinct new_CartManager.
Proof.
  split; [|constructor]. intros k ls Hk.
  change (orders new_CartManager)
    with (<["default" := []]> (∅ : gmap string (list loc))) in Hk.
  apply lookup_insert_Some in Hk as [[_ <-]|[_ Hk]]; [constructor|].
  by rewrite lookup_empty in Hk.
Qed.

Lemma rows_distinct_step_witness :
  rows_distinct
    (step env1 (AddItem (Some (pizza (Number (Num 2))))) with_burger).
Proof.
  apply rows_distinct_step.
  - apply (heap_wf_step env0 (AddItem _) new_CartManager I), heap_wf_new.
  - exact I.
  - exact I.
  - apply (rows_distinct_step env0 (AddItem _) new_CartManager).
    + apply heap_wf_new.
    + exact I.
    + exact I.
    + apply rows_distinct_new.
Defined.

(** ** Quantities stay positive *)

Lemma coerced_quantity_positive (d : descriptor) :
  ltb (parseInt (d_quantity d)) (Num 0) = false →
  positive (coerced_quantity d).
Proof.
  rewrite coerced_quantity_cases. unfold ltb, gtb.
  destruct (parseInt (d_quantity d)) as [|z]; [by exists 1%Z|].
  intros Hz. apply bool_decide_eq_false in Hz.
  case_bool_decide; [by exists 1%Z|]. exists z. split; [done | lia].
Qed.

Lemma positive_add (a b : number) :
  positive a → positive b → positive (add a b).
Proof.
  intros (x & -> & Hx) (y & -> & Hy). exists (x + y)%Z. split; [done | lia].
Qed.

Lemma gtb_positive (q : number) : gtb q (Num 0) = true → positive q.
Proof.
  destruct q as [|z]; [done|]. simpl. intros Hz.
  apply bool_decide_eq_true in Hz. by exists z.
Qed.

(** X3. Each call other than an accepted [addItem] with a negative quantity
    keeps every item object at a quantity of at least 1. *)
Theorem quantities_positive_step (e : env) (o : operation)
  (st : CartManager) :
  adds_negative o = false →
  quantities_positive st → quantities_positive (step e o st).
Proof.
  intros Hneg Hpos. unfold quantities_positive in *. destruct o; simpl.
  - unfold addItem. destruct item as [d|]; [|done].
    destruct (_ || _) eqn:Hguard; [done|]. simpl.
    assert (Hq : positive (coerced_quantity d)).
    { apply coerced_quantity_positive. simpl in Hneg.
      apply orb_false_iff in Hguard as [H1 H2].
      apply negb_false_iff in H1, H2. unfold accepted in Hneg.
      by rewrite H1, H2 in Hneg. }
    destruct (find _ _) as [l|].
    + simpl. apply Forall_alter; [done|]. intros it _ Hit. simpl.
      by apply positive_add.
    + unfold cart_mutate. simpl.
      match goal with |- context [heap st ++ [?it]] => set (new := it) end.
      assert (Hnew : Forall (λ it, positive (item_quantity it))
                       (heap st ++ [new])).
      { apply Forall_app. split; [done|]. by apply Forall_singleton. }
      by destruct (orders st !! activeOrderId st).
  - unfold removeItem, cart_mutate. destruct (in_cart index st); [|done].
    by destruct (orders st !! activeOrderId st).
  - unfold updateQuantity, cart_mutate. destruct (in_cart index st); [|done].
    destruct (gtb _ _) eqn:Hgt.
    + destruct (cart st !! position index); [|done]. simpl.
      apply Forall_alter; [done|]. intros it _ _. simpl.
      by apply gtb_positive.
    + by destruct (orders st !! activeOrderId st).
  - done.
  - unfold createOrder, switchToOrder. destruct (negb _); [|done]. simpl.
    by destruct (has_order _ _).
  - unfold switchToOrder. by destruct (has_order _ _).
  - done.
  - unfold deleteOrder, switchToOrder. case_bool_decide; [done|].
    destruct (has_order st orderId); [|done]. simpl.
    case_bool_decide; [|done]. by destruct (has_order _ _).
  - unfold renameOrder. destruct (orders st !! oldOrderId); [|done].
    destruct (has_order st newOrderId); [done|]. simpl.
    by case_bool_decide.
  - unfold saveAsTemplate. destruct (_ || _); [done|].
    by destruct (find _ _).
  - unfold loadTemplate. by destruct (find _ _).
  - unfold deleteTemplate. by destruct (findIndex _ _).
  - unfold updateTemplate. by destruct (findIndex _ _).
  - unfold duplicateTemplate. by destruct (getTemplate _ _).
Qed.

Lemma quantities_positive_step_witness :
  quantities_positive
    (step env1 (UpdateQuantity (Num 0) (Str "4")) with_burger).
Proof.
  apply quantities_positive_step.
  - reflexivity.
  - apply Forall_cons. split; [|apply Forall_nil_2].
    exists 1%Z. split; [reflexivity | lia].
Defined.

(** The rows of a list of locations are item objects of the heap. *)
Lemma items_of_heap (h : list Item) (ls : list loc) (it : Item) :
  it ∈ items_of h ls → it ∈ h.
Proof.
  unfold items_of. intros Hin.
  apply list_elem_of_omap in Hin as (l & _ & Hl).
  by eapply list_elem_of_lookup_2.
Qed.

(** ** Indices in and out of the cart *)

Section Indices.

Implicit Types st : CartManager.

Lemma in_cart_true (index : number) st :
  in_cart index st = true
  ↔ ∃ i, index = Num (Z.of_nat i) ∧ i < length (cart st).
Proof.
  unfold in_cart, geb, ltb, gtb. destruct index as [|z]; simpl.
  - split; [done | by intros (? & ? & _)].
  - rewrite andb_true_iff, !bool_decide_eq_true. split.
    + intros [H0 Hlt]. exists (Z.to_nat z). split; [f_equal|]; lia.
    + intros (i & [= ->] & Hi). lia.
Qed.

Lemma in_cart_out_of_range (index : number) st :
  out_of_range index st → in_cart index st = false.
Proof.
  intros Hout. destruct (in_cart index st) eqn:Hin; [|done].
  apply in_cart_true in Hin as (i & Hi & Hlt).
  specialize (Hout i Hi). lia.
Qed.

Lemma in_cart_nat (i : nat) st :
  i < length (cart st) → in_cart (Num (Z.of_nat i)) st = true.
Proof. intros Hi. apply in_cart_true. by exists i. Qed.

Lemma cart_at_out_of_range (index : number) st :
  out_of_range index st → cart_at index st = None.
Proof.
  intros Hout. unfold cart_at. destruct index as [|z]; [done|].
  case_bool_decide as Hz; [|done].
  apply lookup_ge_None. apply Hout. f_equal. lia.
Qed.

Lemma cart_mutate_cart (f : list loc → list loc) st :
  is_Some (orders st !! activeOrderId st) →
  cart (cart_mutate f st) = f (cart st).
Proof.
  intros [c Hc]. unfold cart_mutate, cart. rewrite Hc. simpl.
  by rewrite lookup_insert_eq.
Qed.

Lemma cart_mutate_other (f : list loc → list loc) st (k : string) :
  k ≠ activeOrderId st →
  orders (cart_mutate f st) !! k = orders st !! k.
Proof.
  intros Hk. unfold cart_mutate.
  destruct (orders st !! activeOrderId st); [|done].
  simpl. by rewrite lookup_insert_ne.
Qed.

Lemma cart_lookup_active (i : nat) (l : loc) st :
  cart st !! i = Some l → is_Some (orders st !! activeOrderId st).
Proof.
  unfold cart. destruct (orders st !! activeOrderId st); [by eexists|].
  simpl. by rewrite lookup_nil.
Qed.

End Indices.

(** X4. An index that is [NaN], negative or beyond the last row changes
    nothing: [removeItem], [updateQuantity] and a click on a button of the
    cart all leave the state as it is, without a notification. *)
Theorem out_of_range_unchanged (index : number) (quantity : primitive)
  (target : click_target) (st : CartManager) :
  out_of_range index st →
  parseInt (data_index target) = index →
  removeItem index st = st
  ∧ updateQuantity index quantity st = st
  ∧ cartClick target st = st.
Proof.
  intros Hout Hidx.
  pose proof (in_cart_out_of_range _ _ Hout) as Hin.
  pose proof (cart_at_out_of_range _ _ Hout) as Hat.
  unfold removeItem, updateQuantity, cartClick.
  rewrite Hidx. unfold removeItem. rewrite Hin, Hat. simpl.
  by destruct (has_remove_item target), (has_quantity_btn target).
Qed.

Lemma out_of_range_unchanged_witness :
  removeItem (Num 5) with_burger = with_burger
  ∧ updateQuantity (Num 5) (Number (Num 3)) with_burger = with_burger
  ∧ cartClick plus_sixth with_burger = with_burger.
Proof.
  apply out_of_range_unchanged.
  - intros i [= Hi]. change (length (cart with_burger)) with 1. lia.
  - reflexivity.
Defined.

(** X5. [removeItem] on a position of the cart removes that row and no
    other, announces the name of the removed item, and changes neither the
    other orders, nor the templates, nor any item object. *)
Theorem removeItem_in_range (i : nat) (l : loc) (it : Item)
  (st : CartManager) :
  cart st !! i = Some l →
  heap st !! l = Some it →
  cart (removeItem (Num (Z.of_nat i)) st) = delete i (cart st)
  ∧ length (cart (removeItem (Num (Z.of_nat i)) st))
    = Nat.pred (length (cart st))
  ∧ (∀ k, k ≠ activeOrderId st →
          orders (removeItem (Num (Z.of_nat i)) st) !! k = orders st !! k)
  ∧ activeOrderId (removeItem (Num (Z.of_nat i)) st) = activeOrderId st
  ∧ heap (removeItem (Num (Z.of_nat i)) st) = heap st
  ∧ orderTemplates (removeItem (Num (Z.of_nat i)) st) = orderTemplates st
  ∧ notifications (removeItem (Num (Z.of_nat i)) st)
    = notifications st ++ [(item_name it +:+ " removed from cart!", Info)].
Proof.
  intros Hl Hit.
  pose proof (lookup_lt_Some _ _ _ Hl) as Hlt.
  pose proof (cart_lookup_active _ _ _ Hl) as Hact.
  unfold removeItem. rewrite (in_cart_nat _ _ Hlt). simpl.
  rewrite Nat2Z.id, Hl. simpl. rewrite Hit.
  assert (Hcart : cart (showNotification
                          (item_name it +:+ " removed from cart!") Info
                          (cart_mutate (delete i) st))
                  = delete i (cart st)).
  { by apply (cart_mutate_cart (delete i) st). }
  split; [exact Hcart|]. split.
  { rewrite Hcart, length_delete by (by eexists). lia. }
  split; [intros k Hk; by apply (cart_mutate_other (delete i) st)|].
  unfold cart_mutate. by destruct (orders st !! activeOrderId st).
Qed.

Lemma removeItem_in_range_witness :
  cart (removeItem (Num (Z.of_nat 0)) with_burger)
  = delete 0 (cart with_burger)
  ∧ length (cart (removeItem (Num (Z.of_nat 0)) with_burger))
    = Nat.pred (length (cart with_burger))
  ∧ (∀ k, k ≠ activeOrderId with_burger →
          orders (removeItem (Num (Z.of_nat 0)) with_burger) !! k
          = orders with_burger !! k)
  ∧ activeOrderId (removeItem (Num (Z.of_nat 0)) with_burger)
    = activeOrderId with_burger
  ∧ heap (removeItem (Num (Z.of_nat 0)) with_burger) = heap with_burger
  ∧ orderTemplates (removeItem (Num (Z.of_nat 0)) with_burger)
    = orderTemplates with_burger
  ∧ notifications (removeItem (Num (Z.of_nat 0)) with_burger)
    = notifications with_burger
      ++ [(item_name burger +:+ " removed from cart!", Info)].
Proof.
  apply (removeItem_in_range 0 0 burger with_burger); reflexivity.
Defined.

(** X6. [updateQuantity] with a quantity that parses to a positive integer
    sets the quantity of the item object at that row, and changes nothing
    else: no other object, no order, no template, no notification. *)
Theorem updateQuantity_positive (i : nat) (l : loc) (quantity : primitive)
  (q : Z) (st : CartManager) :
  cart st !! i = Some l →
  parseInt quantity = Num q →
  (0 < q)%Z →
  heap (updateQuantity (Num (Z.of_nat i)) quantity st) !! l
  = set_quantity (Num q) <$> heap st !! l
  ∧ (∀ l', l' ≠ l →
           heap (updateQuantity (Num (Z.of_nat i)) quantity st) !! l'
           = heap st !! l')
  ∧ orders (updateQuantity (Num (Z.of_nat i)) quantity st) = orders st
  ∧ activeOrderId (updateQuantity (Num (Z.of_nat i)) quantity st)
    = activeOrderId st
  ∧ orderTemplates (updateQuantity (Num (Z.of_nat i)) quantity st)
    = orderTemplates st
  ∧ notifications (updateQuantity (Num (Z.of_nat i)) quantity st)
    = notifications st.
Proof.
  intros Hl Hq Hpos.
  pose proof (lookup_lt_Some _ _ _ Hl) as Hlt.
  unfold updateQuantity. rewrite (in_cart_nat _ _ Hlt), Hq. simpl.
  rewrite bool_decide_eq_true_2 by done. rewrite Nat2Z.id, Hl. simpl.
  split; [apply list_lookup_alter_eq|].
  split; [|done]. intros l' Hl'. by apply list_lookup_alter_ne.
Qed.

Lemma updateQuantity_positive_witness :
  heap (updateQuantity (Num (Z.of_nat 0)) (Str "4") with_burger) !! 0
  = set_quantity (Num 4) <$> heap with_burger !! 0.
Proof.
  apply (updateQuantity_positive 0 0 (Str "4") 4 with_burger);
    [reflexivity | reflexivity | lia].
Defined.

(** X7. [updateQuantity] with a quantity that parses to [NaN], to 0 or to a
    negative integer removes the row, as [removeItem] does, but shows no
    notification. *)
Theorem updateQuantity_not_positive (i : nat) (l : loc)
  (quantity : primitive) (st : CartManager) :
  cart st !! i = Some l →
  gtb (parseInt quantity) (Num 0) = false →
  cart (updateQuantity (Num (Z.of_nat i)) quantity st) = delete i (cart st)
  ∧ orders (updateQuantity (Num (Z.of_nat i)) quantity st)
    = orders (removeItem (Num (Z.of_nat i)) st)
  ∧ heap (updateQuantity (Num (Z.of_nat i)) quantity st) = heap st
  ∧ notifications (updateQuantity (Num (Z.of_nat i)) quantity st)
    = notifications st.
Proof.
  intros Hl Hq.
  pose proof (lookup_lt_Some _ _ _ Hl) as Hlt.
  pose proof (cart_lookup_active _ _ _ Hl) as Hact.
  unfold updateQuantity, removeItem.
  rewrite (in_cart_nat _ _ Hlt), Hq. simpl. rewrite Nat2Z.id.
  split; [by apply cart_mutate_cart|]. split; [done|].
  unfold cart_mutate. by destruct (orders st !! activeOrderId st).
Qed.

Lemma updateQuantity_not_positive_witness :
  cart (updateQuantity (Num (Z.of_nat 0)) (Str "none") with_burger)
  = delete 0 (cart with_burger).
Proof.
  apply (updateQuantity_not_positive 0 0 (Str "none") with_burger);
    reflexivity.
Defined.

(** X8. A click on a quantity button of row [i], whose item has the
    quantity [q], asks for [q + 1] when the action is [increase] and for
    [q - 1] otherwise: the item object gets the new quantity when it is
    positive, and the row is removed when it is not, so that the button [-]
    on a row of quantity 1 removes the row. *)
Theorem cartClick_quantity (target : click_target) (i : nat) (l : loc)
  (it : Item) (q : Z) (st : CartManager) :
  has_remove_item target = false →
  has_quantity_btn target = true →
  parseInt (data_index target) = Num (Z.of_nat i) →
  cart st !! i = Some l →
  heap st !! l = Some it →
  item_quantity it = Num q →
  let q' := if bool_decide (data_action target = Some "increase")
            then (q + 1)%Z else (q - 1)%Z in
  ((0 < q')%Z →
   heap (cartClick target st) !! l = Some (set_quantity (Num q') it)
   ∧ cart (cartClick target st) = cart st)
  ∧ ((q' ≤ 0)%Z →
     cart (cartClick target st) = delete i (cart st)
     ∧ heap (cartClick target st) = heap st).
Proof.
  intros Hrem Hbtn Hidx Hl Hit Hq q'.
  pose proof (lookup_lt_Some _ _ _ Hl) as Hlt.
  pose proof (cart_lookup_active _ _ _ Hl) as Hact.
  assert (Hclick : cartClick target st
                   = updateQuantity (Num (Z.of_nat i)) (Number (Num q')) st).
  { unfold cartClick. rewrite Hrem, Hbtn, Hidx. unfold cart_at.
    rewrite bool_decide_eq_true_2 by lia. rewrite Nat2Z.id, Hl. simpl.
    rewrite Hit, Hq. unfold q'. by case_bool_decide. }
  rewrite Hclick. unfold updateQuantity.
  rewrite (in_cart_nat _ _ Hlt). simpl. rewrite Nat2Z.id, Hl. split.
  - intros Hpos. rewrite bool_decide_eq_true_2 by done. simpl.
    by rewrite list_lookup_alter_eq, Hit.
  - intros Hneg. rewrite bool_decide_eq_false_2 by lia.
    split; [by apply cart_mutate_cart|].
    unfold cart_mutate. by destruct (orders st !! activeOrderId st).
Qed.

Lemma cartClick_quantity_witness :
  cart (cartClick minus_first with_burger) = delete 0 (cart with_burger)
  ∧ heap (cartClick minus_first with_burger) = heap with_burger.
Proof.
  apply (cartClick_quantity minus_first 0 0 burger 1 with_burger);
    reflexivity.
Defined.

(** ** Clearing, switching, creating, deleting and renaming *)

(** X9. [clearCart] empties the active order, so that the total and the
    count are 0; the other orders, the templates and the item objects are
    unchanged. *)
Theorem clearCart_empties (st : CartManager) :
  cart (clearCart st) = []
  ∧ getTotal (clearCart st) = Num 0
  ∧ getItemCount (clearCart st) = Num 0
  ∧ (∀ k, k ≠ activeOrderId st →
          orders (clearCart st) !! k = orders st !! k)
  ∧ activeOrderId (clearCart st) = activeOrderId st
  ∧ heap (clearCart st) = heap st
  ∧ orderTemplates (clearCart st) = orderTemplates st.
Proof.
  assert (Hcart : cart (clearCart st) = []).
  { unfold cart. simpl. by rewrite lookup_insert_eq. }
  split; [exact Hcart|].
  unfold getTotal, getItemCount. rewrite Hcart.
  split; [done|]. split; [done|]. split; [|done].
  intros k Hk. simpl. by rewrite lookup_insert_ne.
Qed.

(** X10. [switchToOrder] changes no order, no template and no item
    object.  On the id of an order it returns, makes it the active order id
    and shows "Switched to order".  On an id that names an inherited
    property and no order, it makes that name the active order id as well;
    the notification follows if the page is displayed without error, and
    the call throws with no notification otherwise.  On any other id the
    active order id stays and "Order not found" is shown. *)
Theorem switchToOrder_effect (display : CartManager → bool)
  (orderId : string) (st : CartManager) :
  orders (Lookup.switchToOrder display orderId st).2 = orders st
  ∧ heap (Lookup.switchToOrder display orderId st).2 = heap st
  ∧ orderTemplates (Lookup.switchToOrder display orderId st).2
    = orderTemplates st
  ∧ (is_Some (orders st !! orderId) →
     Lookup.switchToOrder display orderId st
     = (Lookup.Returns tt,
        showNotification ("Switched to order: " +:+ orderId) Info
          (set_activeOrderId orderId st)))
  ∧ (orders st !! orderId = None → inherited orderId = true →
     activeOrderId (Lookup.switchToOrder display orderId st).2 = orderId
     ∧ (display (set_activeOrderId orderId st) = true →
        (Lookup.switchToOrder display orderId st).1 = Lookup.Returns tt
        ∧ notifications (Lookup.switchToOrder display orderId st).2
          = notifications st ++ [("Switched to order: " +:+ orderId, Info)])
     ∧ (display (set_activeOrderId orderId st) = false →
        (Lookup.switchToOrder display orderId st).1 = Lookup.TypeError
        ∧ notifications (Lookup.switchToOrder display orderId st).2
          = notifications st))
  ∧ (orders st !! orderId = None → inherited orderId = false →
     Lookup.switchToOrder display orderId st
     = (Lookup.Returns tt,
        showNotification ("Order not found: " +:+ orderId) Error st)).
Proof.
  destruct (orders st !! orderId) as [items|] eqn:Hid.
  - rewrite switchToOrder_stored by (by exists items).
    split; [done|]. split; [done|]. split; [done|]. split; [done|].
    split; by intros.
  - destruct (inherited orderId) eqn:Hin.
    + unfold Lookup.switchToOrder, Lookup.updateCartDisplay.
      unfold Lookup.has_order, Lookup.cart, Lookup.get. simpl.
      rewrite Hid, Hin. simpl.
      destruct (display _); simpl.
      all: split; [done|]; split; [done|]; split; [done|].
      all: split; [by intros [? ?]|].
      all: split; [intros _ _ | by intros].
      all: split; [done|]; split; by intros.
    + rewrite switchToOrder_absent by done.
      split; [done|]. split; [done|]. split; [done|].
      split; [by intros [? ?]|]. split; by intros.
Qed.

(** X11. [createOrder] returns the given name, or a generated id when the
    name is missing or empty.  When an order has that id, or when the id
    names an inherited property, nothing changes: no order is created nor
    made the active one.  Otherwise the order is created empty and becomes
    the active order, the other orders being unchanged. *)
Theorem createOrder_effect (display : CartManager → bool) (e : env)
  (name : option string) (st : CartManager) :
  (Lookup.createOrder display e name st).1
  = Lookup.Returns (or_string name (generateOrderId e "order"))
  ∧ (is_Some (orders st !! or_string name (generateOrderId e "order"))
     ∨ inherited (or_string name (generateOrderId e "order")) = true →
     (Lookup.createOrder display e name st).2 = st)
  ∧ (orders st !! or_string name (generateOrderId e "order") = None →
     inherited (or_string name (generateOrderId e "order")) = false →
     activeOrderId (Lookup.createOrder display e name st).2
     = or_string name (generateOrderId e "order")
     ∧ orders (Lookup.createOrder display e name st).2
       = <[or_string name (generateOrderId e "order") := []]> (orders st)
     ∧ heap (Lookup.createOrder display e name st).2 = heap st
     ∧ orderTemplates (Lookup.createOrder display e name st).2
       = orderTemplates st
     ∧ notifications (Lookup.createOrder display e name st).2
       = notifications st
         ++ [("Switched to order: "
              +:+ or_string name (generateOrderId e "order"), Info);
             ("Created new order: "
              +:+ or_string name (generateOrderId e "order"), Success)]).
Proof.
  unfold Lookup.createOrder.
  set (orderId := or_string name (generateOrderId e "order")).
  destruct (Lookup.has_order st orderId) eqn:Ho; simpl.
  - apply has_order_spec in Ho. split; [done|]. split; [done|].
    intros Hnone Hplain. destruct Ho as [[x Hx]|Hin]; congruence.
  - assert (Hno : ¬ (is_Some (orders st !! orderId)
                     ∨ inherited orderId = true)).
    { intros H. apply has_order_spec in H. congruence. }
    assert (Hsw : Lookup.switchToOrder display orderId
                    (set_orders (<[orderId := []]> (orders st)) st)
                  = (Lookup.Returns tt,
                     showNotification ("Switched to order: " +:+ orderId)
                       Info
                       (set_activeOrderId orderId
                          (set_orders (<[orderId := []]> (orders st))
                             st)))).
    { apply switchToOrder_stored. simpl. rewrite lookup_insert_eq.
      by eexists. }
    rewrite Hsw. simpl. split; [done|]. split; [done|].
    intros _ _. repeat (split; [done|]). by rewrite <- app_assoc.
Qed.

(** X12. [deleteOrder] refuses [default].  On another id it returns [true]
    exactly when the id is the id of an order or names an inherited
    property; it then removes the order, if there is one, shows "Deleted
    order", and changes no other order, no item object and no template;
    for an inherited name that no order has, the orders are unchanged and
    the deletion is reported all the same.  The active order id stays
    unless it is the id given; when the call returns [false] the orders
    are unchanged.  The call never throws. *)
Theorem deleteOrder_effect (display : CartManager → bool)
  (orderId : string) (st : CartManager) :
  ((Lookup.deleteOrder display orderId st).1 = Lookup.Returns true
   ↔ orderId ≠ "default"
     ∧ (is_Some (orders st !! orderId) ∨ inherited orderId = true))
  ∧ ((Lookup.deleteOrder display orderId st).1 = Lookup.Returns true
     ∨ (Lookup.deleteOrder display orderId st).1 = Lookup.Returns false)
  ∧ ((Lookup.deleteOrder display orderId st).1 = Lookup.Returns true →
     orders (Lookup.deleteOrder display orderId st).2
     = delete orderId (orders st)
     ∧ last (notifications (Lookup.deleteOrder display orderId st).2)
       = Some ("Deleted order: " +:+ orderId, Info))
  ∧ ((Lookup.deleteOrder display orderId st).1 = Lookup.Returns false →
     orders (Lookup.deleteOrder display orderId st).2 = orders st)
  ∧ (orders st !! orderId = None →
     orders (Lookup.deleteOrder display orderId st).2 = orders st)
  ∧ (activeOrderId st ≠ orderId →
     activeOrderId (Lookup.deleteOrder display orderId st).2
     = activeOrderId st)
  ∧ heap (Lookup.deleteOrder display orderId st).2 = heap st
  ∧ orderTemplates (Lookup.deleteOrder display orderId st).2
    = orderTemplates st.
Proof.
  unfold Lookup.deleteOrder. case_bool_decide as Hdef.
  { simpl. split; [split; [done | by intros [? _]]|].
    split; [by right|]. repeat (split; [done|]). done. }
  destruct (Lookup.has_order st orderId) eqn:Ho.
  - pose proof (proj1 (has_order_spec st orderId) Ho) as Hspec.
    set (st1 := set_orders (delete orderId (orders st)) st).
    assert (Hsw : ∃ st2,
               (if bool_decide (activeOrderId st1 = orderId)
                then Lookup.switchToOrder display "default" st1
                else (Lookup.Returns tt, st1))
               = (Lookup.Returns tt, st2)
               ∧ orders st2 = orders st1 ∧ heap st2 = heap st1
               ∧ orderTemplates st2 = orderTemplates st1
               ∧ (activeOrderId st ≠ orderId →
                  activeOrderId st2 = activeOrderId st)).
    { case_bool_decide as Hact.
      - destruct (orders st1 !! "default") as [items|] eqn:Hd.
        + rewrite switchToOrder_stored by (by eexists).
          eexists. split; [done|].
          repeat (split; [done|]). intros Hne. by destruct Hne.
        + rewrite switchToOrder_absent by done. eexists. split; [done|].
          repeat (split; [done|]). intros Hne. by destruct Hne.
      - exists st1. by repeat split. }
    destruct Hsw as (st2 & -> & Hso & Hsh & Hst & Hact). simpl.
    rewrite Hso, Hsh, Hst. simpl.
    split; [done|]. split; [by left|].
    split; [intros _; split; [done | apply last_snoc]|].
    split; [done|].
    split; [intros Hnone; by apply delete_id|].
    done.
  - assert (Hno : ¬ (is_Some (orders st !! orderId)
                     ∨ inherited orderId = true)).
    { intros H. apply has_order_spec in H. congruence. }
    simpl. split; [split; [done | by intros [_ ?]]|].
    split; [by right|]. repeat (split; [done|]). done.
Qed.

Example createOrder_constructor (display : CartManager → bool) :
  Lookup.createOrder display env0 (Some "constructor") new_CartManager
  = (Lookup.Returns "constructor", new_CartManager).
Proof. reflexivity. Qed.

Example deleteOrder_toString (display : CartManager → bool) :
  Lookup.deleteOrder display "toString" new_CartManager
  = (Lookup.Returns true,
     showNotification "Deleted order: toString" Info new_CartManager).
Proof. reflexivity. Qed.

(** X13. [renameOrder] on an existing order and a new id for which the
    test of the source finds nothing, neither an order nor an inherited
    property, moves the array of items to the new id, removes the old id,
    keeps the other orders and the item objects, and follows with the
    active order id when the active order was the renamed one. *)
Theorem renameOrder_moves (oldOrderId newOrderId : string)
  (items : list loc) (st : CartManager) :
  orders st !! oldOrderId = Some items →
  Lookup.has_order st newOrderId = false →
  (renameOrder oldOrderId newOrderId st).1 = true
  ∧ orders (renameOrder oldOrderId newOrderId st).2 !! newOrderId
    = Some items
  ∧ orders (renameOrder oldOrderId newOrderId st).2 !! oldOrderId = None
  ∧ (∀ k, k ≠ oldOrderId → k ≠ newOrderId →
          orders (renameOrder oldOrderId newOrderId st).2 !! k
          = orders st !! k)
  ∧ activeOrderId (renameOrder oldOrderId newOrderId st).2
    = (if bool_decide (activeOrderId st = oldOrderId)
       then newOrderId else activeOrderId st)
  ∧ heap (renameOrder oldOrderId newOrderId st).2 = heap st
  ∧ orderTemplates (renameOrder oldOrderId newOrderId st).2
    = orderTemplates st.
Proof.
  intros Hold Hfree.
  assert (Hnew : orders st !! newOrderId = None).
  { destruct (orders st !! newOrderId) as [x|] eqn:Hx; [|done].
    rewrite (proj2 (has_order_spec st newOrderId)) in Hfree; [done|].
    left. by exists x. }
  assert (Hne : oldOrderId ≠ newOrderId) by congruence.
  unfold renameOrder. rewrite Hold.
  rewrite (proj2 (has_order_false st newOrderId) Hnew). simpl.
  assert (Hif : ∀ s : CartManager,
             orders (if bool_decide (activeOrderId st = oldOrderId)
                     then set_activeOrderId newOrderId s else s) = orders s
             ∧ heap (if bool_decide (activeOrderId st = oldOrderId)
                     then set_activeOrderId newOrderId s else s) = heap s
             ∧ orderTemplates
                 (if bool_decide (activeOrderId st = oldOrderId)
                  then set_activeOrderId newOrderId s else s)
               = orderTemplates s
             ∧ activeOrderId
                 (if bool_decide (activeOrderId st = oldOrderId)
                  then set_activeOrderId newOrderId s else s)
               = (if bool_decide (activeOrderId st = oldOrderId)
                  then newOrderId else activeOrderId s)).
  { intros s. by case_bool_decide. }
  destruct (Hif (set_orders
                   (delete oldOrderId
                      (<[newOrderId := items]> (orders st))) st))
    as (Ho & Hh & Ht & Ha).
  rewrite Ho, Hh, Ht, Ha. simpl.
  split; [done|].
  split; [by rewrite lookup_delete_ne, lookup_insert_eq|].
  split; [apply lookup_delete_eq|].
  split; [|done].
  intros k Hk1 Hk2. by rewrite lookup_delete_ne, lookup_insert_ne.
Qed.

Lemma renameOrder_moves_witness :
  (renameOrder "lunch" "dinner" lunch_with_burger).1 = true
  ∧ orders (renameOrder "lunch" "dinner" lunch_with_burger).2 !! "dinner"
    = Some [0]
  ∧ orders (renameOrder "lunch" "dinner" lunch_with_burger).2 !! "lunch"
    = None
  ∧ (∀ k, k ≠ "lunch" → k ≠ "dinner" →
          orders (renameOrder "lunch" "dinner" lunch_with_burger).2 !! k
          = orders lunch_with_burger !! k)
  ∧ activeOrderId (renameOrder "lunch" "dinner" lunch_with_burger).2
    = (if bool_decide (activeOrderId lunch_with_burger = "lunch")
       then "dinner" else activeOrderId lunch_with_burger)
  ∧ heap (renameOrder "lunch" "dinner" lunch_with_burger).2
    = heap lunch_with_burger
  ∧ orderTemplates (renameOrder "lunch" "dinner" lunch_with_burger).2
    = orderTemplates lunch_with_burger.
Proof.
  apply (renameOrder_moves "lunch" "dinner" [0] lunch_with_burger);
    reflexivity.
Defined.

(** [renameOrder] succeeds exactly when the old id exists and the new id
    does not; when it fails the state is unchanged and nothing is shown. *)
Lemma renameOrder_outcome (oldOrderId newOrderId : string)
  (st : CartManager) :
  ((renameOrder oldOrderId newOrderId st).1 = true
   ↔ is_Some (orders st !! oldOrderId) ∧ orders st !! newOrderId = None)
  ∧ ((renameOrder oldOrderId newOrderId st).1 = false →
     (renameOrder oldOrderId newOrderId st).2 = st).
Proof.
  unfold renameOrder.
  destruct (orders st !! oldOrderId) as [items|] eqn:Hold.
  - destruct (has_order st newOrderId) eqn:Hnew; simpl.
    + apply has_order_true in Hnew. split; [|done].
      split; [done|]. intros [_ Hn]. rewrite Hn in Hnew. by destruct Hnew.
    + apply has_order_false in Hnew. split; [|done]. by split.
  - simpl. split; [|done]. split; [done|]. by intros [[? ?] _].
Qed.

(** ** Copies share the item objects *)

(** X14. [duplicateCurrentOrder] stores under the generated id an array of
    the item objects of the cart, and leaves the cart and the active order
    id as they are.  A later [updateQuantity] with a positive quantity on
    row [i] of the cart changes the object the copy holds at row [i]. *)
Theorem duplicateCurrentOrder_shares (e : env) (i : nat) (l : loc)
  (quantity : primitive) (q : Z) (st : CartManager) :
  cart st !! i = Some l →
  parseInt quantity = Num q →
  (0 < q)%Z →
  (duplicateCurrentOrder e st).1 = generateOrderId e "copy"
  ∧ orders (duplicateCurrentOrder e st).2 !! generateOrderId e "copy"
    = Some (cart st)
  ∧ cart (duplicateCurrentOrder e st).2 = cart st
  ∧ activeOrderId (duplicateCurrentOrder e st).2 = activeOrderId st
  ∧ orders (updateQuantity (Num (Z.of_nat i)) quantity
              (duplicateCurrentOrder e st).2) !! generateOrderId e "copy"
    = Some (cart st)
  ∧ heap (updateQuantity (Num (Z.of_nat i)) quantity
            (duplicateCurrentOrder e st).2) !! l
    = set_quantity (Num q) <$> heap st !! l.
Proof.
  intros Hl Hq Hpos.
  pose proof (lookup_lt_Some _ _ _ Hl) as Hlt.
  destruct (cart_lookup_active _ _ _ Hl) as [c Hc].
  assert (Hcart : cart (duplicateCurrentOrder e st).2 = cart st).
  { unfold cart at 1. simpl.
    destruct (decide (generateOrderId e "copy" = activeOrderId st))
      as [Heq|Hne].
    - by rewrite Heq, lookup_insert_eq.
    - rewrite lookup_insert_ne by done. done. }
  assert (Hdup : orders (duplicateCurrentOrder e st).2
                 !! generateOrderId e "copy" = Some (cart st)).
  { simpl. by rewrite lookup_insert_eq. }
  split; [done|]. split; [exact Hdup|]. split; [exact Hcart|].
  split; [done|].
  unfold updateQuantity.
  rewrite (in_cart_nat i (duplicateCurrentOrder e st).2)
    by (by rewrite Hcart).
  rewrite Hq. simpl (gtb _ _). rewrite bool_decide_eq_true_2 by done.
  simpl (position _). rewrite Nat2Z.id, Hcart, Hl.
  split; [exact Hdup|]. apply list_lookup_alter_eq.
Qed.

Lemma duplicateCurrentOrder_shares_witness :
  orders (updateQuantity (Num (Z.of_nat 0)) (Str "4")
            (duplicateCurrentOrder env1 with_burger).2)
  !! generateOrderId env1 "copy" = Some (cart with_burger)
  ∧ heap (updateQuantity (Num (Z.of_nat 0)) (Str "4")
            (duplicateCurrentOrder env1 with_burger).2) !! 0
    = set_quantity (Num 4) <$> heap with_burger !! 0.
Proof.
  apply (duplicateCurrentOrder_shares env1 0 0 (Str "4") 4 with_burger);
    [reflexivity | reflexivity | lia].
Defined.

(** X15. [saveAsTemplate] stores in the template an array of the item
    objects of the cart.  A later [updateQuantity] with a positive quantity
    on row [i] of the cart changes the object the template holds at row
    [i], while the total and the count of the template stay those of the
    cart at the time it was saved. *)
Theorem saveAsTemplate_shares (e : env) (name : string) (i : nat) (l : loc)
  (it : Item) (quantity : primitive) (q : Z) (st : CartManager) :
  trim name ≠ EmptyString →
  Forall (λ t, tpl_name t ≠ sanitizeInput (trim name)) (orderTemplates st) →
  cart st !! i = Some l →
  heap st !! l = Some it →
  parseInt quantity = Num q →
  (0 < q)%Z →
  ∃ t,
    last (orderTemplates
            (updateQuantity (Num (Z.of_nat i)) quantity
               (saveAsTemplate e (Some name) st).2)) = Some t
    ∧ tpl_items t !! i = Some l
    ∧ heap (updateQuantity (Num (Z.of_nat i)) quantity
              (saveAsTemplate e (Some name) st).2) !! l
      = Some (set_quantity (Num q) it)
    ∧ tpl_total t = getTotal st
    ∧ tpl_itemCount t = getItemCount st.
Proof.
  intros Hblank Hname Hl Hit Hq Hpos.
  pose proof (trim_nonempty _ Hblank) as Hne.
  pose proof (lookup_lt_Some _ _ _ Hl) as Hlt.
  unfold saveAsTemplate. simpl.
  rewrite (bool_decide_eq_false_2 (name = EmptyString)) by done.
  rewrite (bool_decide_eq_false_2 (trim name = EmptyString)) by done.
  simpl. rewrite find_none_Forall.
  2:{ eapply Forall_impl; [exact Hname|]. intros t Ht.
      unfold has_name. by apply bool_decide_eq_false_2. }
  simpl. unfold updateQuantity.
  match goal with
  | |- context [in_cart _ ?s] =>
      assert (Hcart : cart s = cart st) by done;
      rewrite (in_cart_nat i s) by (by rewrite Hcart)
  end.
  rewrite Hq. simpl (gtb _ _). rewrite bool_decide_eq_true_2 by done.
  simpl (position _). rewrite Nat2Z.id, Hcart, Hl. simpl.
  eexists. split; [apply last_snoc|]. simpl.
  split; [done|]. split; [|done].
  by rewrite list_lookup_alter_eq, Hit.
Qed.

Lemma saveAsTemplate_shares_witness :
  ∃ t,
    last (orderTemplates
            (updateQuantity (Num (Z.of_nat 0)) (Str "4")
               (saveAsTemplate env1 (Some "Lunch") with_burger).2))
    = Some t
    ∧ tpl_items t !! 0 = Some 0
    ∧ heap (updateQuantity (Num (Z.of_nat 0)) (Str "4")
              (saveAsTemplate env1 (Some "Lunch") with_burger).2) !! 0
      = Some (set_quantity (Num 4) burger)
    ∧ tpl_total t = getTotal with_burger
    ∧ tpl_itemCount t = getItemCount with_burger.
Proof.
  apply (saveAsTemplate_shares env1 "Lunch" 0 0 burger (Str "4") 4
           with_burger).
  - by vm_compute.
  - apply Forall_nil_2.
  - reflexivity.
  - reflexivity.
  - reflexivity.
  - lia.
Defined.

(** ** The outcome of the template calls *)


(** X17. [saveAsTemplate] keeps the names of the templates different from
    one another. *)
Theorem saveAsTemplate_names_unique (e : env)
  (templateName : option string) (st : CartManager) :
  NoDup (tpl_name <$> orderTemplates st) →
  NoDup (tpl_name <$> orderTemplates (saveAsTemplate e templateName st).2).
Proof.
  intros Hnd. unfold saveAsTemplate.
  destruct (_ || _); [done|].
  destruct (find _ _) as [t|] eqn:Hfind; [done|]. simpl.
  rewrite fmap_app. apply NoDup_app. split; [done|].
  split; [|apply NoDup_singleton].
  intros n Hn Hin. apply list_elem_of_singleton in Hin. simpl in Hin.
  subst n. apply list_elem_of_fmap in Hn as (t & Ht & Hin).
  apply list_elem_of_In in Hin.
  pose proof (find_none _ _ Hfind t Hin) as Hf.
  unfold has_name in Hf. by rewrite bool_decide_eq_true_2 in Hf.
Qed.

Lemma saveAsTemplate_names_unique_witness :
  NoDup (tpl_name
           <$> orderTemplates (saveAsTemplate env1 (Some "Lunch") saved_T).2).
Proof.
  apply saveAsTemplate_names_unique.
  apply NoDup_cons. split; [apply not_elem_of_nil | apply NoDup_nil_2].
Defined.


Section FindIndex.

Context {A : Type}.

Lemma findIndex_Some (f : A → bool) (l : list A) (i : nat) :
  findIndex f l = Some i →
  ∃ x, l !! i = Some x ∧ f x = true
       ∧ Forall (λ y, f y = false) (take i l).
Proof.
  revert i. induction l as [|x l IH]; intros i; simpl; [done|].
  destruct (f x) eqn:Hx.
  - intros [= <-]. exists x. repeat split; [done|]. constructor.
  - destruct (findIndex f l) as [j|]; simpl; [|done].
    intros [= <-]. destruct (IH j eq_refl) as (y & Hy & Hfy & Hall).
    exists y. simpl. repeat split; try done. by constructor.
Qed.

Lemma findIndex_None (f : A → bool) (l : list A) :
  findIndex f l = None ↔ Forall (λ y, f y = false) l.
Proof.
  induction l as [|x l IH]; simpl; [by split; [constructor|]|].
  destruct (f x) eqn:Hx.
  - split; [done|]. intros H. inversion H; congruence.
  - destruct (findIndex f l) as [j|]; simpl.
    + split; [done|]. intros H. inversion H as [|? ? _ Hl]; subst.
      by apply IH in Hl.
    + split; [|done]. intros _. constructor; [done|]. by apply IH.
Qed.

Lemma findIndex_find (f : A → bool) (l : list A) :
  find f l = findIndex f l ≫= (l !!.).
Proof.
  induction l as [|x l IH]; simpl; [done|].
  destruct (f x); [done|]. rewrite IH.
  by destruct (findIndex f l).
Qed.

End FindIndex.

(** X19. [deleteTemplate] succeeds exactly when some template has the id.
    It then removes the first such template and keeps all the others in
    their order, with one notification; when it fails the state is
    unchanged. *)
Theorem deleteTemplate_effect (templateId : string) (st : CartManager) :
  ((deleteTemplate templateId st).1 = true
   ↔ Exists (λ t, tpl_id t = templateId) (orderTemplates st))
  ∧ ((deleteTemplate templateId st).1 = false →
     (deleteTemplate templateId st).2 = st)
  ∧ ((deleteTemplate templateId st).1 = true →
     ∃ i t,
       orderTemplates st !! i = Some t
       ∧ tpl_id t = templateId
       ∧ Forall (λ t', tpl_id t' ≠ templateId) (take i (orderTemplates st))
       ∧ orderTemplates (deleteTemplate templateId st).2
         = take i (orderTemplates st) ++ drop (S i) (orderTemplates st)
       ∧ notifications (deleteTemplate templateId st).2
         = notifications st
           ++ [("Deleted template: " +:+ tpl_name t, Info)]
       ∧ orders (deleteTemplate templateId st).2 = orders st
       ∧ heap (deleteTemplate templateId st).2 = heap st).
Proof.
  unfold deleteTemplate.
  destruct (findIndex (has_id templateId) (orderTemplates st)) as [i|]
    eqn:Hfind; simpl.
  - apply findIndex_Some in Hfind as (t & Ht & Hid & Hbefore).
    apply bool_decide_eq_true in Hid.
    split; [|split; [done|]].
    + split; [|done]. intros _. apply Exists_exists. exists t.
      split; [by eapply list_elem_of_lookup_2 | done].
    + intros _. exists i, t. rewrite Ht.
      split; [done|]. split; [done|]. split.
      { eapply Forall_impl; [exact Hbefore|]. intros t' Ht'.
        by apply bool_decide_eq_false in Ht'. }
      split; [apply delete_take_drop|]. done.
  - apply findIndex_None in Hfind.
    split; [|split; [done|done]].
    split; [done|]. intros Hex. apply Exists_exists in Hex as (t & Hin & Ht).
    rewrite Forall_forall in Hfind. specialize (Hfind t Hin).
    unfold has_id in Hfind. by rewrite bool_decide_eq_true_2 in Hfind.
Qed.

(** X20. The summary of an order is asked for by its id, or for the active
    order when no id or the empty id is given.  When an order is stored
    under the id, the summary holds its items and the sums over them of
    the quantities and of [price * quantity], added from left to right;
    for the active order these are [getItemCount()] and [getTotal()].
    When the id names neither an order nor an inherited property, the
    summary is empty with two zeros.  When the id names an inherited
    property and no order, the call throws. *)
Theorem getOrderSummary_sums (orderId : option string) (st : CartManager) :
  (∀ items,
     orders st !! or_string orderId (activeOrderId st) = Some items →
     getOrderSummary orderId st
     = Lookup.Returns
         {| sum_orderId := or_string orderId (activeOrderId st);
            sum_itemCount := sum_quantity (items_of (heap st) items);
            sum_total := sum_price_quantity (items_of (heap st) items);
            sum_items := items |})
  ∧ (∀ items,
       truthy_string orderId = false →
       orders st !! activeOrderId st = Some items →
       getOrderSummary orderId st
       = Lookup.Returns
           {| sum_orderId := activeOrderId st;
              sum_itemCount := getItemCount st;
              sum_total := getTotal st;
              sum_items := items |})
  ∧ (orders st !! or_string orderId (activeOrderId st) = None →
     inherited (or_string orderId (activeOrderId st)) = false →
     getOrderSummary orderId st
     = Lookup.Returns
         {| sum_orderId := or_string orderId (activeOrderId st);
            sum_itemCount := Num 0; sum_total := Num 0; sum_items := [] |})
  ∧ (orders st !! or_string orderId (activeOrderId st) = None →
     inherited (or_string orderId (activeOrderId st)) = true →
     getOrderSummary orderId st = Lookup.TypeError).
Proof.
  assert (Hown : ∀ items,
             orders st !! or_string orderId (activeOrderId st) = Some items →
             getOrderSummary orderId st
             = Lookup.Returns
                 {| sum_orderId := or_string orderId (activeOrderId st);
                    sum_itemCount := sum_quantity (items_of (heap st) items);
                    sum_total :=
                      sum_price_quantity (items_of (heap st) items);
                    sum_items := items |}).
  { intros items Hitems. unfold getOrderSummary, Lookup.get.
    rewrite Hitems. by rewrite reduce_total_sum, reduce_count_sum. }
  split; [exact Hown|]. split; [|split].
  - intros items Hfalsy Hitems.
    assert (Hid : or_string orderId (activeOrderId st) = activeOrderId st).
    { destruct orderId as [k|]; simpl in *; [|done].
      by case_bool_decide. }
    rewrite Hid in Hown. rewrite (Hown items Hitems).
    destruct (totals_of_active_order st items Hitems) as (_ & _ & -> & ->).
    done.
  - intros Hnone Hplain. unfold getOrderSummary, Lookup.get.
    by rewrite Hnone, Hplain.
  - intros Hnone Hin. unfold getOrderSummary, Lookup.get.
    by rewrite Hnone, Hin.
Qed.

Example getOrderSummary_lunch :
  getOrderSummary (Some "lunch") lunch_with_burger
  = Lookup.Returns
      {| sum_orderId := "lunch"; sum_itemCount := Num 1;
         sum_total := Num 120; sum_items := [0] |}.
Proof. reflexivity. Qed.

Example getOrderSummary_toString :
  getOrderSummary (Some "toString") lunch_with_burger = Lookup.TypeError.
Proof. reflexivity. Qed.

(** X21. [updateTemplate] succeeds exactly when some template has the id,
    and changes nothing when it fails.  It rewrites the first such template
    in place: the id and the creation time stay, the update time is set;
    given items replace the items, and the total and the count become the
    sums over the given items, added from left to right; a given name
    replaces the name after
    trimming and escaping, with no check against the other names.  The
    other templates, the orders and the item objects are unchanged. *)
Theorem updateTemplate_effect (e : env) (templateId : string)
  (newName : option string) (newItems : option (list loc))
  (st : CartManager) :
  ((updateTemplate e templateId newName newItems st).1 = true
   ↔ Exists (λ t, tpl_id t = templateId) (orderTemplates st))
  ∧ ((updateTemplate e templateId newName newItems st).1 = false →
     (updateTemplate e templateId newName newItems st).2 = st)
  ∧ ((updateTemplate e templateId newName newItems st).1 = true →
     ∃ i t t',
       orderTemplates st !! i = Some t
       ∧ tpl_id t = templateId
       ∧ Forall (λ u, tpl_id u ≠ templateId) (take i (orderTemplates st))
       ∧ orderTemplates (updateTemplate e templateId newName newItems st).2
         = <[i := t']> (orderTemplates st)
       ∧ tpl_id t' = templateId
       ∧ tpl_createdAt t' = tpl_createdAt t
       ∧ tpl_updatedAt t' = Some (now e)
       ∧ tpl_name t'
         = (if truthy_string newName
            then sanitizeInput (trim (default EmptyString newName))
            else tpl_name t)
       ∧ tpl_items t' = default (tpl_items t) newItems
       ∧ (∀ ls, newItems = Some ls →
            tpl_total t' = sum_price_quantity (items_of (heap st) ls)
            ∧ tpl_itemCount t' = sum_quantity (items_of (heap st) ls))
       ∧ (newItems = None →
          tpl_total t' = tpl_total t ∧ tpl_itemCount t' = tpl_itemCount t)).
Proof.
  unfold updateTemplate.
  destruct (findIndex (has_id templateId) (orderTemplates st)) as [i|]
    eqn:Hfind; simpl.
  - apply findIndex_Some in Hfind as (t & Ht & Hid & Hbefore).
    apply bool_decide_eq_true in Hid.
    split; [|split; [done|]].
    + split; [|done]. intros _. apply Exists_exists. exists t.
      split; [by eapply list_elem_of_lookup_2 | done].
    + intros _.
      exists i, t, (update_fields e (heap st) newName newItems t).
      split; [done|]. split; [done|]. split.
      { eapply Forall_impl; [exact Hbefore|]. intros u Hu.
        by apply bool_decide_eq_false in Hu. }
      split.
      { apply list_eq. intros j.
        destruct (decide (i = j)) as [<-|Hne].
        - rewrite list_lookup_alter_eq, Ht.
          rewrite list_lookup_insert_eq by (by eapply lookup_lt_Some).
          done.
        - by rewrite list_lookup_alter_ne, list_lookup_insert_ne. }
      simpl. repeat (split; [done|]). split.
      * intros ls ->. split; [apply reduce_total_sum | apply reduce_count_sum].
      * by intros ->.
  - apply findIndex_None in Hfind.
    split; [|split; [done|done]].
    split; [done|]. intros Hex. apply Exists_exists in Hex as (t & Hin & Ht).
    rewrite Forall_forall in Hfind. specialize (Hfind t Hin).
    unfold has_id in Hfind. by rewrite bool_decide_eq_true_2 in Hfind.
Qed.

(** X22. [duplicateTemplate] fails, changing nothing, when no template has
    the id.  Otherwise it appends a copy of the first such template under
    the generated id and returns that id: the copy holds the same item
    objects, total and count; its name is the given one, or the name of the
    source followed by [ (Copy)], with no check against the other names;
    the templates already there are unchanged. *)
Theorem duplicateTemplate_effect (e : env) (templateId : string)
  (newName : option string) (st : CartManager) :
  (getTemplate templateId st = None →
   duplicateTemplate e templateId newName st = (None, st))
  ∧ (∀ t, getTemplate templateId st = Some t →
       ∃ copy,
         (duplicateTemplate e templateId newName st).1
         = Some (generateOrderId e "template")
         ∧ orderTemplates (duplicateTemplate e templateId newName st).2
           = orderTemplates st ++ [copy]
         ∧ tpl_id copy = generateOrderId e "template"
         ∧ tpl_name copy = or_string newName (tpl_name t +:+ " (Copy)")
         ∧ tpl_items copy = tpl_items t
         ∧ tpl_total copy = tpl_total t
         ∧ tpl_itemCount copy = tpl_itemCount t
         ∧ orders (duplicateTemplate e templateId newName st).2 = orders st
         ∧ heap (duplicateTemplate e templateId newName st).2 = heap st).
Proof.
  unfold duplicateTemplate. split.
  - by intros ->.
  - intros t ->. simpl. eexists. split; [done|]. split; [done|]. done.
Qed.

(** ** Escaping *)

Section Escaping.

Lemma chars_app (s1 s2 : string) : chars (s1 +:+ s2) = chars s1 ++ chars s2.
Proof.
  unfold chars. induction s1 as [|c s1 IH]; simpl; [done|]. by rewrite IH.
Qed.

Lemma escape_char_safe (c : ascii) :
  Forall (λ x, x ≠ "<"%char ∧ x ≠ ">"%char) (chars (escape_char c)).
Proof.
  unfold escape_char. cbv zeta.
  destruct (code c =? 38)%N eqn:H38; [by repeat constructor|].
  destruct (code c =? 60)%N eqn:H60; [by repeat constructor|].
  destruct (code c =? 62)%N eqn:H62; [by repeat constructor|].
  destruct (code c =? 160)%N eqn:H160; [by repeat constructor|].
  apply Forall_singleton. split; intros ->; by vm_compute in H60, H62.
Qed.

Lemma escape_char_plain (c : ascii) :
  is_special c = false → escape_char c = String c EmptyString.
Proof.
  unfold is_special, escape_char. cbv zeta. intros H.
  apply orb_false_iff in H as [H H160].
  apply orb_false_iff in H as [H H62].
  apply orb_false_iff in H as [H38 H60].
  by rewrite H38, H60, H62, H160.
Qed.

Lemma escape_char_nonempty (c : ascii) : escape_char c ≠ EmptyString.
Proof.
  unfold escape_char. cbv zeta.
  by repeat (match goal with |- context [if ?b then _ else _] =>
                        destruct b end).
Qed.

End Escaping.

(** X23. The text [sanitizeInput] returns holds no [<] and no [>]; it is
    empty only for the empty input; an input without [&], [<], [>] and
    no-break space is returned as it is. *)
Theorem sanitizeInput_safe (input : string) :
  Forall (λ c, c ≠ "<"%char ∧ c ≠ ">"%char) (chars (sanitizeInput input))
  ∧ (sanitizeInput input = EmptyString ↔ input = EmptyString)
  ∧ (Forall (λ c, is_special c = false) (chars input) →
     sanitizeInput input = input).
Proof.
  split; [|split].
  - induction input as [|c s IH]; simpl; [constructor|].
    rewrite chars_app. apply Forall_app. split; [apply escape_char_safe|done].
  - split; [|by intros ->].
    destruct input as [|c s]; [done|]. simpl. intros H.
    pose proof (escape_char_nonempty c) as Hc.
    destruct (escape_char c); [done | discriminate H].
  - induction input as [|c s IH]; [done|].
    intros H. unfold chars in H. simpl in H.
    apply Forall_cons in H as [Hc Hs]. simpl.
    rewrite escape_char_plain by done. simpl. f_equal. by apply IH.
Qed.

(** ** The matcher decides the language of a pattern *)

Section Matcher.

Lemma matches_void_inv (s : list ascii) : ¬ matches Void s.
Proof. inversion 1. Qed.

Lemma matches_eps_inv (s : list ascii) : matches Eps s → s = [].
Proof. by inversion 1. Qed.

Lemma matches_class_inv (p : ascii → bool) (s : list ascii) :
  matches (Class p) s → ∃ c, s = [c] ∧ p c = true.
Proof. inversion 1; subst. by eexists. Qed.

Lemma matches_cat_inv (r1 r2 : regex) (s : list ascii) :
  matches (Cat r1 r2) s →
  ∃ s1 s2, s = s1 ++ s2 ∧ matches r1 s1 ∧ matches r2 s2.
Proof. inversion 1; subst. by eexists _, _. Qed.

Lemma matches_alt_inv (r1 r2 : regex) (s : list ascii) :
  matches (Alt r1 r2) s → matches r1 s ∨ matches r2 s.
Proof. inversion 1; subst; [by left | by right]. Qed.

Lemma nullable_matches (r : regex) : nullable r = true ↔ matches r [].
Proof.
  induction r as [| |p|r1 IH1 r2 IH2|r1 IH1 r2 IH2|r IH]; simpl.
  - split; [done|]. by intros H%matches_void_inv.
  - split; [constructor | done].
  - split; [done|]. by intros (c & ? & _)%matches_class_inv.
  - rewrite andb_true_iff, IH1, IH2. split.
    + intros [H1 H2]. exact (matches_cat r1 r2 [] [] H1 H2).
    + intros (s1 & s2 & Heq & H1 & H2)%matches_cat_inv.
      symmetry in Heq. apply app_eq_nil in Heq as [-> ->]. by split.
  - rewrite orb_true_iff, IH1, IH2. split.
    + intros [H|H]; [by apply matches_alt_l | by apply matches_alt_r].
    + apply matches_alt_inv.
  - split; [constructor | done].
Qed.

(** A non-empty string of [r*] starts with a non-empty string of [r]. *)
Lemma matches_star_cons_inv (r : regex) (c : ascii) (s : list ascii) :
  matches (Star r) (c :: s) →
  ∃ s1 s2, s = s1 ++ s2 ∧ matches r (c :: s1) ∧ matches (Star r) s2.
Proof.
  intros H. remember (Star r) as r' eqn:Hr. remember (c :: s) as s' eqn:Hs.
  revert s Hs. induction H as [| | | | | |r0 s1 s2 H1 _ H2 IH2];
    try discriminate; intros s Hs.
  injection Hr as ->. destruct s1 as [|c1 s1].
  - simpl in Hs. by apply IH2.
  - simpl in Hs. injection Hs as -> <-. by exists s1, s2.
Qed.

Lemma derivative_cat (c : ascii) (r1 r2 d1 : regex) (s : list ascii) :
  (∀ s', matches d1 s' ↔ matches r1 (c :: s')) →
  matches (Cat d1 r2) s
  ↔ ∃ s1 s2, s = s1 ++ s2 ∧ matches r1 (c :: s1) ∧ matches r2 s2.
Proof.
  intros Hd. split.
  - intros (s1 & s2 & -> & H1 & H2)%matches_cat_inv.
    exists s1, s2. by rewrite <- Hd.
  - intros (s1 & s2 & -> & H1 & H2). constructor; [by apply Hd | done].
Qed.

Lemma derivative_matches (r : regex) (c : ascii) (s : list ascii) :
  matches (derivative c r) s ↔ matches r (c :: s).
Proof.
  revert s. induction r as [| |p|r1 IH1 r2 IH2|r1 IH1 r2 IH2|r IH];
    intros s; simpl.
  - split; by intros H%matches_void_inv.
  - split; [by intros H%matches_void_inv|].
    by intros H%matches_eps_inv.
  - destruct (p c) eqn:Hp.
    + split.
      * intros ->%matches_eps_inv. by constructor.
      * intros (c' & [= <- ->] & _)%matches_class_inv. constructor.
    + split; [by intros H%matches_void_inv|].
      intros (c' & [= <- ->] & Hc)%matches_class_inv. congruence.
  - pose proof (derivative_cat c r1 r2 _ s IH1) as Hcat.
    destruct (nullable r1) eqn:Hn.
    + split.
      * intros [Hl|Hr]%matches_alt_inv.
        -- apply Hcat in Hl as (s1 & s2 & -> & H1 & H2).
           exact (matches_cat r1 r2 (c :: s1) s2 H1 H2).
        -- apply IH2 in Hr. apply nullable_matches in Hn.
           exact (matches_cat r1 r2 [] (c :: s) Hn Hr).
      * intros (s1 & s2 & Heq & H1 & H2)%matches_cat_inv.
        destruct s1 as [|c1 s1]; simpl in Heq.
        -- subst s2. apply matches_alt_r. by apply IH2.
        -- injection Heq as <- ->. apply matches_alt_l, Hcat.
           by exists s1, s2.
    + rewrite Hcat. split.
      * intros (s1 & s2 & -> & H1 & H2).
        exact (matches_cat r1 r2 (c :: s1) s2 H1 H2).
      * intros (s1 & s2 & Heq & H1 & H2)%matches_cat_inv.
        destruct s1 as [|c1 s1]; simpl in Heq.
        -- apply nullable_matches in H1. congruence.
        -- injection Heq as <- ->. by exists s1, s2.
  - split.
    + intros [H|H]%matches_alt_inv;
        [apply matches_alt_l, IH1 | apply matches_alt_r, IH2]; done.
    + intros [H|H]%matches_alt_inv;
        [apply matches_alt_l, IH1 | apply matches_alt_r, IH2]; done.
  - split.
    + intros (s1 & s2 & -> & H1 & H2)%matches_cat_inv.
      apply IH in H1. exact (matches_star_cons r (c :: s1) s2 H1 H2).
    + intros H. apply matches_star_cons_inv in H as (s1 & s2 & -> & H1 & H2).
      constructor; [by apply IH | done].
Qed.

Lemma accepts_matches (r : regex) (s : list ascii) :
  accepts r s = true ↔ matches r s.
Proof.
  revert r. induction s as [|c s IH]; intros r; simpl.
  - apply nullable_matches.
  - rewrite IH. apply derivative_matches.
Qed.

End Matcher.

(** ** Strings of classes *)

Section Classes.

Variable p : ascii → bool.

Lemma matches_star_class (s : list ascii) :
  matches (Star (Class p)) s ↔ Forall (λ c, p c = true) s.
Proof.
  split.
  - intros H. remember (Star (Class p)) as r eqn:Hr.
    induction H as [| | | | | |r0 s1 s2 H1 _ H2 IH2]; try discriminate.
    + constructor.
    + injection Hr as ->.
      apply matches_class_inv in H1 as (c & -> & Hc).
      constructor; [done | by apply IH2].
  - induction 1 as [|c s Hc _ IH]; [constructor|].
    apply (matches_star_cons (Class p) [c] s); [by constructor | done].
Qed.

Lemma matches_plus_class (s : list ascii) :
  matches (plus (Class p)) s ↔ s ≠ [] ∧ Forall (λ c, p c = true) s.
Proof.
  unfold plus. split.
  - intros (s1 & s2 & -> & H1 & H2)%matches_cat_inv.
    apply matches_class_inv in H1 as (c & -> & Hc).
    apply matches_star_class in H2. split; [done | by constructor].
  - intros [Hne Hall]. destruct Hall as [|c s Hc Hs]; [done|].
    apply (matches_cat (Class p) _ [c] s); [by constructor|].
    by apply matches_star_class.
Qed.

Lemma matches_times_class (n : nat) (s : list ascii) :
  matches (times n (Class p)) s
  ↔ length s = n ∧ Forall (λ c, p c = true) s.
Proof.
  revert s. induction n as [|n IH]; intros s; simpl.
  - split.
    + intros ->%matches_eps_inv. by split.
    + intros [Hlen _]. destruct s; [constructor | done].
  - split.
    + intros (s1 & s2 & -> & H1 & H2)%matches_cat_inv.
      apply matches_class_inv in H1 as (c & -> & Hc).
      apply IH in H2 as [<- Hall]. split; [done | by constructor].
    + intros [Hlen Hall]. destruct Hall as [|c s Hc Hs]; [done|].
      apply (matches_cat (Class p) _ [c] s); [by constructor|].
      apply IH. split; [by injection Hlen | done].
Qed.

Lemma matches_at_least_class (n : nat) (s : list ascii) :
  matches (at_least n (Class p)) s
  ↔ n ≤ length s ∧ Forall (λ c, p c = true) s.
Proof.
  unfold at_least. split.
  - intros (s1 & s2 & -> & H1 & H2)%matches_cat_inv.
    apply matches_times_class in H1 as [<- H1].
    apply matches_star_class in H2.
    split; [rewrite length_app; lia | by apply Forall_app].
  - intros [Hlen Hall].
    rewrite <- (take_drop n s) in Hall. apply Forall_app in Hall as [Ht Hd].
    rewrite <- (take_drop n s). constructor.
    + apply matches_times_class. split; [|done].
      rewrite length_take. lia.
    + by apply matches_star_class.
Qed.

End Classes.

Lemma matches_char (c : ascii) (s : list ascii) :
  matches (Class (is_char c)) s ↔ s = [c].
Proof.
  split.
  - intros (x & -> & Hx)%matches_class_inv.
    by apply bool_decide_eq_true in Hx as ->.
  - intros ->. constructor. by apply bool_decide_eq_true.
Qed.

(** The strings of a pattern of the shape [A+@B+\.C], as the patterns for
    e-mail addresses and UPI ids are. *)
Lemma matches_address (pa pb : ascii → bool) (rc : regex)
  (s : list ascii) :
  matches
    (Cat (plus (Class pa))
       (Cat (Class (is_char "@"))
          (Cat (plus (Class pb)) (Cat (Class (is_char ".")) rc)))) s
  ↔ ∃ a b c,
      s = a ++ "@"%char :: b ++ "."%char :: c
      ∧ a ≠ [] ∧ Forall (λ x, pa x = true) a
      ∧ b ≠ [] ∧ Forall (λ x, pb x = true) b
      ∧ matches rc c.
Proof.
  split.
  - intros (a & s1 & -> & Ha & H1)%matches_cat_inv.
    apply matches_cat_inv in H1 as (at' & s2 & -> & Hat & H2).
    apply matches_cat_inv in H2 as (b & s3 & -> & Hb & H3).
    apply matches_cat_inv in H3 as (dot & c & -> & Hdot & Hc).
    apply matches_char in Hat as ->. apply matches_char in Hdot as ->.
    apply matches_plus_class in Ha as [Ha1 Ha2].
    apply matches_plus_class in Hb as [Hb1 Hb2].
    by exists a, b, c.
  - intros (a & b & c & -> & Ha1 & Ha2 & Hb1 & Hb2 & Hc).
    constructor; [by apply matches_plus_class|].
    apply (matches_cat _ _ ["@"%char]); [by apply matches_char|].
    constructor; [by apply matches_plus_class|].
    apply (matches_cat _ _ ["."%char]); [by apply matches_char | done].
Qed.

(** X24. [validateEmail] accepts exactly the strings made of a local part,
    [@], a host part, a dot and a last part, where the three parts are not
    empty and hold neither white space nor [@]: the address has a single
    [@], and the host part and the last part may hold further dots. *)
Theorem validateEmail_accepts (email : string) :
  validateEmail email = true
  ↔ ∃ a b c,
      chars email = a ++ "@"%char :: b ++ "."%char :: c
      ∧ a ≠ [] ∧ b ≠ [] ∧ c ≠ []
      ∧ Forall (λ x, is_whitespace x = false ∧ x ≠ "@"%char) (a ++ b ++ c).
Proof.
  unfold validateEmail, test. rewrite accepts_matches.
  unfold emailRegex. rewrite matches_address.
  assert (Hchar : ∀ x, email_char x = true
                       ↔ is_whitespace x = false ∧ x ≠ "@"%char).
  { intros x. unfold email_char, is_char.
    rewrite andb_true_iff, !negb_true_iff, bool_decide_eq_false. done. }
  split.
  - intros (a & b & c & Heq & Ha1 & Ha2 & Hb1 & Hb2 & Hc).
    apply matches_plus_class in Hc as [Hc1 Hc2].
    exists a, b, c. repeat (split; [done|]).
    rewrite !Forall_app. repeat split;
      (eapply Forall_impl; [eassumption|]; intros x Hx; by apply Hchar).
  - intros (a & b & c & Heq & Ha & Hb & Hc & Hall).
    rewrite !Forall_app in Hall. destruct Hall as (Ha2 & Hb2 & Hc2).
    exists a, b, c. split; [done|].
    split; [done|]. split.
    { eapply Forall_impl; [exact Ha2|]. intros x Hx. by apply Hchar. }
    split; [done|]. split.
    { eapply Forall_impl; [exact Hb2|]. intros x Hx. by apply Hchar. }
    apply matches_plus_class. split; [done|].
    eapply Forall_impl; [exact Hc2|]. intros x Hx. by apply Hchar.
Qed.

(** X25. [validatePhone] accepts exactly the strings made of an optional
    [+] followed by ten or more characters, each a digit, a white space, a
    dash or a parenthesis: it does not ask for any digit. *)
Theorem validatePhone_accepts (phone : string) :
  validatePhone phone = true
  ↔ ∃ body,
      (chars phone = body ∨ chars phone = "+"%char :: body)
      ∧ 10 ≤ length body
      ∧ Forall (λ x, phone_char x = true) body.
Proof.
  unfold validatePhone, test. rewrite accepts_matches. unfold phoneRegex.
  split.
  - intros (s1 & body & Heq & H1 & H2)%matches_cat_inv.
    apply matches_at_least_class in H2 as [Hlen Hall].
    exists body. split; [|done].
    apply matches_alt_inv in H1 as [Heps|Hplus].
    + apply matches_eps_inv in Heps as ->. by left.
    + apply matches_char in Hplus as ->. by right.
  - intros (body & Heq & Hlen & Hall).
    assert (Hbody : matches (at_least 10 (Class phone_char)) body)
      by (by apply matches_at_least_class).
    destruct Heq as [->| ->].
    + apply (matches_cat _ _ [] body); [|done].
      apply matches_alt_l. constructor.
    + apply (matches_cat _ _ ["+"%char] body); [|done].
      apply matches_alt_r. by apply matches_char.
Qed.

Lemma upi_user_email (c : ascii) :
  upi_user_char c = true → email_char c = true.
Proof.
  destruct c as [[] [] [] [] [] [] [] []]; by vm_compute.
Qed.

Lemma upi_host_email (c : ascii) :
  upi_host_char c = true → email_char c = true.
Proof.
  destruct c as [[] [] [] [] [] [] [] []]; by vm_compute.
Qed.

Lemma letter_email (c : ascii) : is_letter c = true → email_char c = true.
Proof.
  destruct c as [[] [] [] [] [] [] [] []]; by vm_compute.
Qed.

(** X26. [validateUPI] accepts exactly the strings made of a user part of
    letters, digits, dots, underscores and dashes, [@], a host part of
    letters, digits, dots and dashes, a dot and two or more letters, the
    user part and the host part not empty; every UPI id it accepts is an
    e-mail address for [validateEmail]. *)
Theorem validateUPI_accepts (upiId : string) :
  (validateUPI upiId = true
   ↔ ∃ a b c,
       chars upiId = a ++ "@"%char :: b ++ "."%char :: c
       ∧ a ≠ [] ∧ Forall (λ x, upi_user_char x = true) a
       ∧ b ≠ [] ∧ Forall (λ x, upi_host_char x = true) b
       ∧ 2 ≤ length c ∧ Forall (λ x, is_letter x = true) c)
  ∧ (validateUPI upiId = true → validateEmail upiId = true).
Proof.
  assert (Hupi : validateUPI upiId = true
                 ↔ ∃ a b c,
                     chars upiId = a ++ "@"%char :: b ++ "."%char :: c
                     ∧ a ≠ [] ∧ Forall (λ x, upi_user_char x = true) a
                     ∧ b ≠ [] ∧ Forall (λ x, upi_host_char x = true) b
                     ∧ 2 ≤ length c ∧ Forall (λ x, is_letter x = true) c).
  { unfold validateUPI, test. rewrite accepts_matches.
    unfold upiRegex. rewrite matches_address.
    split.
    - intros (a & b & c & Heq & Ha1 & Ha2 & Hb1 & Hb2 & Hc).
      apply matches_at_least_class in Hc. by exists a, b, c.
    - intros (a & b & c & Heq & Ha1 & Ha2 & Hb1 & Hb2 & Hc).
      exists a, b, c. repeat (split; [done|]).
      by apply matches_at_least_class. }
  split; [exact Hupi|].
  intros H. apply Hupi in H
    as (a & b & c & Heq & Ha1 & Ha2 & Hb1 & Hb2 & Hlen & Hc).
  unfold validateEmail, test. rewrite accepts_matches.
  unfold emailRegex. apply matches_address.
  exists a, b, c. split; [done|]. split; [done|]. split.
  { eapply Forall_impl; [exact Ha2|]. apply upi_user_email. }
  split; [done|]. split.
  { eapply Forall_impl; [exact Hb2|]. apply upi_host_email. }
  apply matches_plus_class. split.
  - destruct c; [simpl in Hlen; lia | done].
  - eapply Forall_impl; [exact Hc|]. apply letter_email.
Qed.

(** ** Trimming *)

Section Trim.

Lemma chars_inj (s1 s2 : string) : chars s1 = chars s2 → s1 = s2.
Proof.
  unfold chars. intros H.
  rewrite <- (string_of_list_ascii_of_string s1),
    <- (string_of_list_ascii_of_string s2).
  by rewrite H.
Qed.

Lemma chars_rev_app (s1 s2 : string) :
  chars (String.rev_app s1 s2) = rev (chars s1) ++ chars s2.
Proof.
  revert s2. induction s1 as [|c s1 IH]; intros s2; simpl; [done|].
  rewrite IH. unfold chars. simpl. by rewrite <- app_assoc.
Qed.

Lemma chars_rev (s : string) : chars (String.rev s) = rev (chars s).
Proof.
  unfold String.rev. rewrite chars_rev_app. unfold chars at 2. simpl.
  by rewrite app_nil_r.
Qed.

Lemma chars_trimStart (s : string) :
  chars (trimStart s) = drop_whitespace (chars s).
Proof.
  induction s as [|c s IH]; simpl; [done|].
  unfold chars. simpl. by destruct (is_whitespace c).
Qed.

Lemma chars_trim (s : string) :
  chars (trim s)
  = rev (drop_whitespace (rev (drop_whitespace (chars s)))).
Proof.
  unfold trim. by rewrite chars_rev, chars_trimStart, chars_rev,
    chars_trimStart.
Qed.

Lemma drop_whitespace_suffix (l : list ascii) :
  ∃ w, l = w ++ drop_whitespace l.
Proof.
  induction l as [|c l [w Hw]]; simpl; [by exists []|].
  destruct (is_whitespace c).
  - exists (c :: w). simpl. by rewrite <- Hw.
  - by exists [].
Qed.

Lemma drop_whitespace_head (l : list ascii) (c : ascii) (l' : list ascii) :
  drop_whitespace l = c :: l' → is_whitespace c = false.
Proof.
  induction l as [|x l IH]; simpl; [done|].
  destruct (is_whitespace x) eqn:Hx; [done|]. by intros [= <- _].
Qed.

Lemma drop_whitespace_idempotent (l : list ascii) :
  drop_whitespace (drop_whitespace l) = drop_whitespace l.
Proof.
  destruct (drop_whitespace l) as [|c l'] eqn:Hd; [done|].
  simpl. by rewrite (drop_whitespace_head _ _ _ Hd).
Qed.

(** A string that was trimmed is not changed by [trim]. *)
Lemma trim_idempotent (s : string) : trim (trim s) = trim s.
Proof.
  apply chars_inj. rewrite (chars_trim (trim s)), (chars_trim s).
  set (u := drop_whitespace (chars s)).
  set (d := drop_whitespace (rev u)).
  assert (Hfront : drop_whitespace (rev d) = rev d).
  { destruct (drop_whitespace_suffix (rev u)) as [w Hw]. fold d in Hw.
    apply (f_equal (@rev ascii)) in Hw.
    rewrite rev_involutive, rev_app_distr in Hw.
    destruct (rev d) as [|c t] eqn:Ht; [done|].
    simpl. simpl in Hw.
    assert (Hc : is_whitespace c = false).
    { eapply (drop_whitespace_head (chars s)). fold u. exact Hw. }
    by rewrite Hc. }
  rewrite Hfront, rev_involutive. unfold d.
  by rewrite drop_whitespace_idempotent.
Qed.

Lemma trim_empty : trim EmptyString = EmptyString.
Proof. done. Qed.

Lemma string_length_chars (s : string) :
  String.length s = length (chars s).
Proof.
  unfold chars. induction s as [|c s IH]; simpl; [done|]. by rewrite IH.
Qed.

Lemma validateRequired_trimmed (value : string) :
  validateRequired (trim value)
  = negb (bool_decide (trim value = EmptyString)).
Proof.
  unfold validateRequired. rewrite trim_idempotent.
  case_bool_decide as Hv; [done|]. simpl.
  apply bool_decide_eq_true. destruct (trim value); [done | simpl; lia].
Qed.

End Trim.

(** X27. [validateField] trims the value first.  A blank value gives the
    error that names the field as required when the field is required, and
    passes, whatever the field, when it is not.  A [pincode] field whose
    value is not blank passes exactly when the trimmed value is made of six
    digits. *)
Theorem validateField_blank_and_pincode (f : field) :
  (trim (f_value f) = EmptyString → f_required f = true →
   ∃ label, validateField f = (false, Some (label +:+ " is required")))
  ∧ (trim (f_value f) = EmptyString → f_required f = false →
     validateField f = (true, None))
  ∧ (trim (f_value f) ≠ EmptyString →
     toLowerCase (if bool_decide (f_name f = EmptyString)
                  then f_id f else f_name f) = "pincode" →
     ((validateField f).1 = true
      ↔ length (chars (trim (f_value f))) = 6
        ∧ Forall (λ c, is_digit c = true) (chars (trim (f_value f))))
     ∧ ((validateField f).1 = false →
        (validateField f).2 = Some "Please enter a valid 6-digit pin code")).
Proof.
  unfold validateField. cbv zeta.
  rewrite validateRequired_trimmed.
  split; [|split].
  - intros Hblank ->. rewrite Hblank. rewrite bool_decide_eq_true_2 by done.
    by eexists.
  - intros Hblank ->. rewrite Hblank. simpl.
    by repeat case_bool_decide.
  - intros Hvalue Hkind. rewrite Hkind.
    rewrite (bool_decide_eq_false_2 (trim (f_value f) = EmptyString))
      by done.
    simpl. rewrite andb_false_r. simpl.
    unfold test.
    destruct (accepts pincodeRegex (chars (trim (f_value f)))) eqn:Hacc;
      simpl.
    + split; [|done]. split; [|done]. intros _.
      apply accepts_matches in Hacc. unfold pincodeRegex in Hacc.
      by apply matches_times_class in Hacc.
    + split; [|done]. split; [done|]. intros Hsix.
      assert (accepts pincodeRegex (chars (trim (f_value f))) = true).
      { apply accepts_matches. unfold pincodeRegex.
        by apply matches_times_class. }
      congruence.
Qed.

(** ** The delivery address *)

Section Address.

Lemma append_nonempty (s1 s2 : string) :
  s1 ≠ EmptyString → s1 +:+ s2 ≠ EmptyString.
Proof. by destruct s1. Qed.

Lemma join_nonempty (sep p : string) (ps : list string) :
  p ≠ EmptyString → join sep (p :: ps) ≠ EmptyString.
Proof.
  simpl. revert p. induction ps as [|q ps IH]; intros p Hp; simpl; [done|].
  apply IH. by apply append_nonempty.
Qed.

Lemma push_if_nil (v : option string) (f : string → string)
  (parts : list string) :
  push_if v f parts = [] ↔ truthy_string v = false ∧ parts = [].
Proof.
  unfold push_if. destruct (truthy_string v).
  - split; [|by intros [? _]]. by destruct parts.
  - by split; [|intros [_ ?]].
Qed.

Lemma push_if_nonempty (v : option string) (f : string → string)
  (parts : list string) :
  (∀ s, s ≠ EmptyString → f s ≠ EmptyString) →
  Forall (λ s, s ≠ EmptyString) parts →
  Forall (λ s, s ≠ EmptyString) (push_if v f parts).
Proof.
  intros Hf Hparts. unfold push_if.
  destruct v as [s|]; simpl; [|done]. case_bool_decide as Hs; [done|].
  simpl. apply Forall_app. split; [done|].
  apply Forall_singleton. by apply Hf.
Qed.

End Address.

(** X28. [buildFullAddress] returns the empty string exactly when the
    street, the village, the district, the state, the country and the pin
    code are all absent or empty. *)
Theorem buildFullAddress_empty (d : orderData) :
  buildFullAddress d = EmptyString
  ↔ truthy_string (od_street d) = false
    ∧ truthy_string (od_village d) = false
    ∧ truthy_string (od_district d) = false
    ∧ truthy_string (od_state d) = false
    ∧ truthy_string (od_country d) = false
    ∧ truthy_string (od_pincode d) = false.
Proof.
  unfold buildFullAddress. cbv zeta.
  set (parts := push_if (od_pincode d) _ _).
  assert (Hnil : parts = []
                 ↔ truthy_string (od_street d) = false
                   ∧ truthy_string (od_village d) = false
                   ∧ truthy_string (od_district d) = false
                   ∧ truthy_string (od_state d) = false
                   ∧ truthy_string (od_country d) = false
                   ∧ truthy_string (od_pincode d) = false).
  { unfold parts. rewrite !push_if_nil. tauto. }
  assert (Hall : Forall (λ s, s ≠ EmptyString) parts).
  { unfold parts.
    apply push_if_nonempty; [intros s _; done|].
    repeat (apply push_if_nonempty; [done|]). constructor. }
  rewrite <- Hnil. split.
  - destruct parts as [|p ps]; [done|]. intros Hjoin.
    apply Forall_cons in Hall as [Hp _].
    by destruct (join_nonempty ", " p ps Hp).
  - by intros ->.
Qed.

(** ** Signing up and logging in *)

Section Auth.

Lemma before_at_split (s : string) :
  ∃ rest,
    chars s = chars (before_at s) ++ rest
    ∧ Forall (λ c, c ≠ "@"%char) (chars (before_at s))
    ∧ (rest = [] ∨ ∃ rest', rest = "@"%char :: rest').
Proof.
  induction s as [|c s (rest & Heq & Hno & Hrest)]; simpl.
  - exists []. split; [done|]. split; [constructor | by left].
  - case_bool_decide as Hc.
    + subst c. exists ("@"%char :: chars s). split; [done|].
      split; [constructor|]. right. by eexists.
    + exists rest. unfold chars in *. simpl. split; [by rewrite Heq|].
      split; [|done]. by constructor.
Qed.

Lemma validateEmail_nonempty (email : string) :
  validateEmail email = true → email ≠ EmptyString.
Proof. intros H ->. by vm_compute in H. Qed.

Lemma validatePassword_nonempty (password : string) :
  validatePassword password = true → password ≠ EmptyString.
Proof.
  intros H ->. unfold validatePassword in H.
  apply bool_decide_eq_true in H. simpl in H. lia.
Qed.

End Auth.

(** X29. [handleSignup] ends with the success notification exactly when the
    name is not empty, [validateEmail] accepts the e-mail address and the
    password has six characters or more; it never ends with
    [Failed to create account]. *)
Theorem handleSignup_outcome (name email password : option string) :
  (handleSignup name email password
   = ("Account created successfully!", Success)
   ↔ truthy_string name = true
     ∧ (∃ a, email = Some a ∧ validateEmail a = true)
     ∧ (∃ p, password = Some p ∧ 6 ≤ String.length p))
  ∧ handleSignup name email password
    ≠ ("Failed to create account", Error).
Proof.
  unfold handleSignup.
  destruct (truthy_string name) eqn:Hn; simpl.
  2:{ split; [|done]. split; [done | by intros [? _]]. }
  destruct email as [a|]; simpl.
  2:{ split; [|done]. split; [done | by intros (_ & (a & ? & _) & _)]. }
  destruct password as [p|]; simpl.
  2:{ rewrite orb_true_r. split; [|done].
      split; [done | by intros (_ & _ & (p & ? & _))]. }
  destruct (bool_decide (a = EmptyString)) eqn:Ha; simpl.
  { apply bool_decide_eq_true in Ha. subst a. split; [|done].
    split; [done|]. intros (_ & (a & [= <-] & Hv) & _). by vm_compute in Hv. }
  destruct (bool_decide (p = EmptyString)) eqn:Hp; simpl.
  { apply bool_decide_eq_true in Hp. subst p. split; [|done].
    split; [done|]. intros (_ & _ & (p & [= <-] & Hlen)).
    simpl in Hlen. lia. }
  destruct (validateEmail a) eqn:Hv; simpl.
  2:{ split; [|done]. split; [done|].
      intros (_ & (a' & [= <-] & Hv') & _). congruence. }
  unfold validatePassword.
  destruct (bool_decide (6 ≤ String.length p)) eqn:Hlen; simpl.
  - apply bool_decide_eq_true in Hlen. split; [|done]. split; [|done].
    intros _. split; [done|]. split; by eexists.
  - apply bool_decide_eq_false in Hlen. split; [|done]. split; [done|].
    intros (_ & _ & (p' & [= <-] & Hlen')). done.
Qed.

(** X30. [handleLogin] asks only for an e-mail field and a password field
    that are not empty: it then saves a session whose name is the part of
    the e-mail before its first [@], and reports success, with no check of
    the shape of the address nor of the password; it never ends with
    [Invalid credentials]. *)
Theorem handleLogin_outcome (e : env) (email password : option string) :
  (truthy_string email = true → truthy_string password = true →
   ∃ u rest,
     handleLogin e email password = (Some u, ("Login successful!", Success))
     ∧ email = Some (user_email u)
     ∧ user_loginTime u = now e
     ∧ chars (user_email u) = chars (user_name u) ++ rest
     ∧ Forall (λ c, c ≠ "@"%char) (chars (user_name u))
     ∧ (rest = [] ∨ ∃ rest', rest = "@"%char :: rest'))
  ∧ (truthy_string email && truthy_string password = false →
     handleLogin e email password
     = (None, ("Please fill in all fields", Error)))
  ∧ (handleLogin e email password).2 ≠ ("Invalid credentials", Error).
Proof.
  unfold handleLogin. split; [|split].
  - intros He Hp. rewrite He, Hp. simpl.
    destruct email as [a|]; [|done]. simpl.
    destruct (before_at_split a) as (rest & Heq & Hno & Hrest).
    eexists _, rest. split; [done|]. simpl. done.
  - intros H. apply andb_false_iff in H as [->| ->]; simpl; [done|].
    by rewrite orb_true_r.
  - by destruct (truthy_string email), (truthy_string password).
Qed.

(** ** Samples of the validators *)

Example validateEmail_samples :
  validateEmail "asha@example.co.in" = true
  ∧ validateEmail "asha@example" = false
  ∧ validateEmail "asha @example.com" = false
  ∧ validateEmail "a@b@c.d" = false.
Proof. by vm_compute. Qed.

Example validatePhone_samples :
  validatePhone "+91 98765-43210" = true
  ∧ validatePhone "98765" = false
  ∧ validatePhone "          " = true
  ∧ validatePhone "98765 4321O" = false.
Proof. by vm_compute. Qed.

Example validateField_samples :
  validateField {| f_value := " 560001 "; f_name := "pincode";
                   f_id := EmptyString; f_required := true |}
  = (true, None)
  ∧ validateField {| f_value := "   "; f_name := EmptyString;
                     f_id := "street"; f_required := true |}
    = (false, Some "Street Address is required")
  ∧ validateField {| f_value := "asha@okbank"; f_name := "upi-id";
                     f_id := EmptyString; f_required := false |}
    = (false, Some "Please enter a valid UPI ID (e.g., username@upi)").
Proof. by vm_compute. Qed.

Example buildFullAddress_sample :
  buildFullAddress
    {| od_street := Some "12 MG Road"; od_village := Some EmptyString;
       od_district := None; od_state := Some "Karnataka";
       od_country := Some "India"; od_pincode := Some "560001" |}
  = "12 MG Road, Karnataka, India, Pin Code: 560001".
Proof. by vm_compute. Qed.

Example handleLogin_sample :
  handleLogin env0 (Some "asha") (Some "x")
  = (Some {| user_email := "asha"; user_name := "asha";
             user_loginTime := 1700000000000 |},
     ("Login successful!", Success)).
Proof. by vm_compute. Qed.
